(** * Automated daily instance AMI snapshots: a model of [handler.py]

    The handler visits every configured region, images the instances that
    carry a backup tag, tags each image with a [DeleteAfter] date, and then
    removes the images whose date has passed together with their snapshots.

    The embedding follows the source function by function.  The EC2 client,
    the clock and standard output are the effects of the program: the client
    and the clock are a record of operations over an abstract world, and the
    program is written in a state-and-exception monad that records every
    request and every printed line in order.  The parts of the Python library
    the handler relies on ([int], [time.strptime], [strftime], [date] plus
    [timedelta], comparison of [struct_time]) are modelled on ASCII strings
    after CPython's behaviour. *)

From Stdlib Require Import ZArith List Bool Ascii String Lia.
Import ListNotations.

Open Scope string_scope.
Open Scope Z_scope.

(** ** Strings *)

Module Str.

(** [needle in haystack] on Python strings. *)
Fixpoint contains (needle haystack : string) : bool :=
  if String.prefix needle haystack then true
  else match haystack with
       | EmptyString => false
       | String _ rest => contains needle rest
       end.

(** [','.join(parts)] *)
Fixpoint join (sep : string) (parts : list string) : string :=
  match parts with
  | [] => ""
  | [p] => p
  | p :: rest => p ++ sep ++ join sep rest
  end.

Definition digit_char (d : Z) : ascii := ascii_of_nat (48 + Z.to_nat d).

Definition digit_val (c : ascii) : option Z :=
  let n := Z.of_nat (nat_of_ascii c) in
  if (48 <=? n) && (n <=? 57) then Some (n - 48) else None.

Definition is_digit (c : ascii) : bool :=
  match digit_val c with Some _ => true | None => false end.

(** Decimal digits of a non-negative number, most significant first;
    [fuel] bounds the number of digits. *)
Fixpoint digits_fuel (fuel : nat) (n : Z) (acc : string) : string :=
  match fuel with
  | O => acc
  | S fuel' =>
      let acc' := String (digit_char (n mod 10)) acc in
      if n <? 10 then acc' else digits_fuel fuel' (n / 10) acc'
  end.

Definition of_nonneg (n : Z) : string :=
  digits_fuel (S (Z.to_nat (Z.log2 n))) n "".

(** [str(n)] for an integer. *)
Definition of_Z (n : Z) : string :=
  if n <? 0 then String "-" (of_nonneg (- n)) else of_nonneg n.

(** [%02d]-style fields of [strftime]: two digits for a value below 100. *)
Definition pad2 (n : Z) : string :=
  String (digit_char (n / 10 mod 10)) (String (digit_char (n mod 10)) "").

(** [%Y] of [strftime]: four digits for a year below 10000. *)
Definition pad4 (n : Z) : string :=
  String (digit_char (n / 1000 mod 10))
    (String (digit_char (n / 100 mod 10)) (pad2 n)).

End Str.

(** ** The calendar of [datetime]

    The proleptic Gregorian calendar as [datetime.date] implements it:
    ordinals count days from 0001-01-01 = 1. *)

Module Calendar.

Record date := mkdate { year : Z; month : Z; day : Z }.

Definition MINYEAR : Z := 1.
Definition MAXYEAR : Z := 9999.
Definition MAXORDINAL : Z := 3652059.

Definition is_leap (y : Z) : bool :=
  (y mod 4 =? 0) && (negb (y mod 100 =? 0) || (y mod 400 =? 0)).

Definition days_before_year (y : Z) : Z :=
  let y' := y - 1 in y' * 365 + y' / 4 - y' / 100 + y' / 400.

(** [_DAYS_IN_MONTH], indexed from 1. *)
Definition DAYS_IN_MONTH (m : Z) : Z :=
  match m with
  | 1 => 31 | 2 => 28 | 3 => 31 | 4 => 30 | 5 => 31 | 6 => 30
  | 7 => 31 | 8 => 31 | 9 => 30 | 10 => 31 | 11 => 30 | 12 => 31
  | _ => 0
  end.

(** [_DAYS_BEFORE_MONTH], indexed from 1. *)
Definition DAYS_BEFORE_MONTH (m : Z) : Z :=
  match m with
  | 1 => 0 | 2 => 31 | 3 => 59 | 4 => 90 | 5 => 120 | 6 => 151
  | 7 => 181 | 8 => 212 | 9 => 243 | 10 => 273 | 11 => 304 | 12 => 334
  | _ => 0
  end.

Definition days_in_month (y m : Z) : Z :=
  if (m =? 2) && is_leap y then 29 else DAYS_IN_MONTH m.

Definition days_before_month (y m : Z) : Z :=
  DAYS_BEFORE_MONTH m + (if (2 <? m) && is_leap y then 1 else 0).

(** The check [date(year, month, day)] performs on its arguments. *)
Definition valid_ymd (y m d : Z) : bool :=
  (MINYEAR <=? y) && (y <=? MAXYEAR) &&
  (1 <=? m) && (m <=? 12) &&
  (1 <=? d) && (d <=? days_in_month y m).

Definition valid (dt : date) : bool := valid_ymd (year dt) (month dt) (day dt).

Definition ymd2ord (y m d : Z) : Z :=
  days_before_year y + days_before_month y m + d.

Definition toordinal (dt : date) : Z := ymd2ord (year dt) (month dt) (day dt).

Definition DI400Y : Z := 146097.
Definition DI100Y : Z := 36524.
Definition DI4Y : Z := 1461.

(** The tail of [_ord2ymd]: month and day from the day of the year
    counted from 0; the estimate [(n + 50) >> 5] is corrected downwards
    when it overshoots. *)
Definition month_and_day (leapyear : bool) (n : Z) : Z * Z :=
  let m := Z.shiftr (n + 50) 5 in
  let preceding :=
    DAYS_BEFORE_MONTH m + (if (2 <? m) && leapyear then 1 else 0) in
  if n <? preceding then
    let m := m - 1 in
    let preceding :=
      preceding - (DAYS_IN_MONTH m + (if (m =? 2) && leapyear then 1 else 0)) in
    (m, n - preceding + 1)
  else (m, n - preceding + 1).

(** [_ord2ymd]: the 400-, 100-, 4- and 1-year cycles, then the month. *)
Definition ord2ymd (ordinal : Z) : date :=
  let n := ordinal - 1 in
  let n400 := n / DI400Y in
  let n := n mod DI400Y in
  let y := n400 * 400 + 1 in
  let n100 := n / DI100Y in
  let n := n mod DI100Y in
  let n4 := n / DI4Y in
  let n := n mod DI4Y in
  let n1 := n / 365 in
  let n := n mod 365 in
  let y := y + n100 * 100 + n4 * 4 + n1 in
  if (n1 =? 4) || (n100 =? 4) then mkdate (y - 1) 12 31
  else
    let leapyear := (n1 =? 3) && (negb (n4 =? 24) || (n100 =? 3)) in
    let '(m, d) := month_and_day leapyear n in
    mkdate y m d.

Definition fromordinal (n : Z) : date := ord2ymd n.

(** [date.weekday()]: Monday is 0. *)
Definition weekday (dt : date) : Z := (toordinal dt + 6) mod 7.

Definition days_in_year (y : Z) : Z := if is_leap y then 366 else 365.

(** What the month step of [_ord2ymd] has to satisfy on day [n] of a year:
    a month, a day within it, and the right number of days before. *)
Definition month_and_day_ok (leap : bool) (n : Z) : bool :=
  let '(m, d) := month_and_day leap n in
  (1 <=? m) && (m <=? 12) && (1 <=? d)
  && (d <=? DAYS_IN_MONTH m + (if (m =? 2) && leap then 1 else 0))
  && (DAYS_BEFORE_MONTH m + (if (2 <? m) && leap then 1 else 0) + d =? n + 1).

(** Calendar order: by year, then month, then day. *)
Definition before (a b : date) : bool :=
  (year a <? year b)
  || ((year a =? year b)
      && ((month a <? month b)
          || ((month a =? month b) && (day a <? day b)))).

End Calendar.

(** ** The pieces of the Python library the handler calls *)

Module Py.
Import Calendar.

(** Exceptions.  A failed request carries what [str(sys.exc_info())] and
    [str(e)] render for it; every exception modelled here derives from
    [Exception]. *)
Inductive exn :=
| BotoError (exc_info : string) (message : string)
| ValueError (message : string)
| TypeError (message : string)
| OverflowError (message : string).

(** [str(sys.exc_info())] while the exception is being handled. *)
Definition str_exc_info (e : exn) : string :=
  match e with
  | BotoError info _ => info
  | ValueError m => "(<class 'ValueError'>, ValueError('" ++ m ++ "'), <traceback object>)"
  | TypeError m => "(<class 'TypeError'>, TypeError('" ++ m ++ "'), <traceback object>)"
  | OverflowError m =>
      "(<class 'OverflowError'>, OverflowError('" ++ m ++ "'), <traceback object>)"
  end.

(** [str(e)] *)
Definition str_exn (e : exn) : string :=
  match e with
  | BotoError _ m | ValueError m | TypeError m | OverflowError m => m
  end.

Inductive result (A : Type) :=
| Ok (a : A)
| Raise (e : exn).
Arguments Ok {A} a.
Arguments Raise {A} e.

(** *** [int(s)] on a string *)

(** The ASCII characters [int] strips from both ends. *)
Definition is_space (c : ascii) : bool :=
  let n := Z.of_nat (nat_of_ascii c) in
  ((9 <=? n) && (n <=? 13)) || ((28 <=? n) && (n <=? 32)).

Fixpoint lstrip (s : list ascii) : list ascii :=
  match s with
  | c :: rest => if is_space c then lstrip rest else s
  | [] => []
  end.

Definition strip (s : list ascii) : list ascii :=
  rev (lstrip (rev (lstrip s))).

(** Digits with single underscores between them, accumulated in base 10.
    [prev_digit] tells whether the previous character was a digit. *)
Fixpoint int_digits (s : list ascii) (prev_digit : bool) (acc : Z) : option Z :=
  match s with
  | [] => if prev_digit then Some acc else None
  | c :: rest =>
      match Str.digit_val c with
      | Some d => int_digits rest true (acc * 10 + d)
      | None =>
          if Ascii.eqb c "_" && prev_digit
          then match rest with
               | c' :: _ => if Str.is_digit c' then int_digits rest false acc else None
               | [] => None
               end
          else None
      end
  end.

Definition int_of_string (s : string) : result Z :=
  let bad := Raise (ValueError ("invalid literal for int() with base 10: '" ++ s ++ "'")) in
  let body := strip (list_ascii_of_string s) in
  let '(negative, ds) :=
    match body with
    | "-"%char :: ds => (true, ds)
    | "+"%char :: ds => (false, ds)
    | _ => (false, body)
    end in
  match int_digits ds false 0 with
  | Some n => Ok (if negative then - n else n)
  | None => bad
  end.

(** *** [time.struct_time] and [time.strptime(s, '%m-%d-%Y')] *)

(** The nine sequence fields of a [struct_time]. *)
Record struct_time := mktime {
  tm_year : Z; tm_mon : Z; tm_mday : Z;
  tm_hour : Z; tm_min : Z; tm_sec : Z;
  tm_wday : Z; tm_yday : Z; tm_isdst : Z
}.

Definition fields (t : struct_time) : list Z :=
  [tm_year t; tm_mon t; tm_mday t; tm_hour t; tm_min t; tm_sec t;
   tm_wday t; tm_yday t; tm_isdst t].

(** Tuple comparison: the first position where the sequences differ
    decides; equal sequences compare equal. *)
Fixpoint tuple_le (a b : list Z) : bool :=
  match a, b with
  | x :: a', y :: b' => if x =? y then tuple_le a' b' else x <? y
  | [], _ => true
  | _ :: _, [] => false
  end.

(** [a <= b] on [struct_time] values. *)
Definition struct_time_le (a b : struct_time) : bool :=
  tuple_le (fields a) (fields b).

(** The [struct_time] [_strptime] builds for a date without a time of
    day: midnight, the week day and the day of the year of that date, and
    [tm_isdst] unknown. *)
Definition midnight (dt : date) : struct_time :=
  mktime (year dt) (month dt) (day dt) 0 0 0 (weekday dt)
    (toordinal dt - ymd2ord (year dt) 1 1 + 1) (-1).

(** The calendar date of a [struct_time]. *)
Definition date_of (t : struct_time) : date :=
  mkdate (tm_year t) (tm_mon t) (tm_mday t).

(** The regular expression [_strptime] builds for ['%m-%d-%Y'] is
    [(1[0-2]|0[1-9]|[1-9])-(3[0-1]|[1-2]\d|0[1-9]|[1-9]| [1-9])-(\d\d\d\d)].
    Each group lists its alternatives in the order the pattern tries them;
    an alternative yields the value read and the rest of the input. *)
Definition alts := list (Z * string).

Definition digit_in (lo hi : Z) (c : ascii) : option Z :=
  match Str.digit_val c with
  | Some d => if (lo <=? d) && (d <=? hi) then Some d else None
  | None => None
  end.

Definition opt_alt (o : option (Z * string)) : alts :=
  match o with Some r => [r] | None => [] end.

(** A digit between [tlo] and [thi] followed by one between [lo] and [hi]. *)
Definition two_digits (tlo thi lo hi : Z) (s : string) : alts :=
  opt_alt
    match s with
    | String c1 (String c2 rest) =>
        match digit_in tlo thi c1, digit_in lo hi c2 with
        | Some a, Some b => Some (a * 10 + b, rest)
        | _, _ => None
        end
    | _ => None
    end.

Definition one_digit (lo hi : Z) (s : string) : alts :=
  opt_alt
    match s with
    | String c rest =>
        match digit_in lo hi c with Some a => Some (a, rest) | None => None end
    | _ => None
    end.

Definition space_digit (s : string) : alts :=
  match s with
  | String " " rest => one_digit 1 9 rest
  | _ => []
  end.

(** [%m]: [1[0-2]|0[1-9]|[1-9]] *)
Definition re_m (s : string) : alts :=
  (two_digits 1 1 0 2 s ++ two_digits 0 0 1 9 s ++ one_digit 1 9 s)%list.

(** [%d]: [3[0-1]|[1-2]\d|0[1-9]|[1-9]| [1-9]] *)
Definition re_d (s : string) : alts :=
  (two_digits 3 3 0 1 s ++ two_digits 1 2 0 9 s ++ two_digits 0 0 1 9 s
   ++ one_digit 1 9 s ++ space_digit s)%list.

(** [%Y]: [\d\d\d\d] *)
Definition re_Y (s : string) : alts :=
  opt_alt
    match s with
    | String c1 (String c2 (String c3 (String c4 rest))) =>
        match Str.digit_val c1, Str.digit_val c2, Str.digit_val c3, Str.digit_val c4 with
        | Some a, Some b, Some c, Some d =>
            Some (a * 1000 + b * 100 + c * 10 + d, rest)
        | _, _, _, _ => None
        end
    | _ => None
    end.

(** The literal [-] between the groups. *)
Definition re_dash {A} (k : string -> list A) (s : string) : list A :=
  match s with
  | String "-" rest => k rest
  | _ => []
  end.

(** All ways the pattern matches a prefix of [s], in the order a
    backtracking matcher finds them: month, day, year and what is left. *)
Definition re_mdY (s : string) : list (Z * Z * Z * string) :=
  flat_map (fun '(m, s1) =>
    re_dash (fun s2 =>
      flat_map (fun '(d, s3) =>
        re_dash (fun s4 =>
          map (fun '(y, s5) => (m, d, y, s5)) (re_Y s4)) s3)
        (re_d s2)) s1)
    (re_m s).

(** [time.strptime(s, '%m-%d-%Y')]: the first match of the pattern must
    consume the whole string, and [datetime_date(year, month, day)] must
    accept the fields; the week day and the day of the year come from
    that date. *)
Definition strptime_mdY (s : string) : result struct_time :=
  match re_mdY s with
  | [] =>
      Raise (ValueError ("time data '" ++ s ++ "' does not match format '%m-%d-%Y'"))
  | (m, d, y, rest) :: _ =>
      match rest with
      | String _ _ => Raise (ValueError ("unconverted data remains: " ++ rest))
      | EmptyString =>
          if valid_ymd y m d then Ok (midnight (mkdate y m d))
          else Raise (ValueError "day is out of range for month")
      end
  end.

(** *** [datetime] values, [strftime] and [date + timedelta] *)

Record datetime := mkdatetime {
  dt_date : date; hour : Z; minute : Z; second : Z
}.

(** [strftime('%m-%d-%Y')] *)
Definition strftime_mdY (d : date) : string :=
  Str.pad2 (month d) ++ "-" ++ Str.pad2 (day d) ++ "-" ++ Str.pad4 (year d).

(** [strftime('%Y-%m-%d-%H-%M-%S')] *)
Definition strftime_YmdHMS (t : datetime) : string :=
  Str.pad4 (year (dt_date t)) ++ "-" ++ Str.pad2 (month (dt_date t)) ++ "-"
  ++ Str.pad2 (day (dt_date t)) ++ "-" ++ Str.pad2 (hour t) ++ "-"
  ++ Str.pad2 (minute t) ++ "-" ++ Str.pad2 (second t).

(** [d + datetime.timedelta(days=n)]: the constructor refuses more than
    999999999 days, the addition refuses a result outside the calendar. *)
Definition date_add_days (d : date) (n : Z) : result date :=
  if 999999999 <? Z.abs n
  then Raise (OverflowError "days is too large")
  else
    let o := toordinal d + n in
    if (0 <? o) && (o <=? MAXORDINAL) then Ok (fromordinal o)
    else Raise (OverflowError "date value out of range").

End Py.

(** ** The EC2 data the handler reads *)

(** A tag as the API returns it: [{'Key': ..., 'Value': ...}], both
    entries present, so [t.get('Value')] is the value. *)
Record Tag := mkTag { Key : string; Value : string }.

Module Instance.
(** [State] is [instance['State']['Name']]. *)
Record t := mk { InstanceId : string; State : string; Tags : list Tag }.
End Instance.

Record Reservation := mkReservation { Instances : list Instance.t }.

(** A block-device mapping; [Ebs] is absent for instance-store volumes
    and holds the snapshot id [i['Ebs']['SnapshotId']] otherwise. *)
Record BlockDeviceMapping := mkMapping { DeviceName : string; Ebs : option string }.

Module Image.
Record t := mk {
  ImageId : string;
  Tags : list Tag;
  BlockDeviceMappings : list BlockDeviceMapping
}.
End Image.

Record Filter := mkFilter { Name : string; Values : list string }.

(** The requests the handler sends, with their keyword arguments. *)
Inductive request :=
| DescribeInstances (Filters : list Filter)
| CreateImage (InstanceId Name Description : string) (NoReboot DryRun : bool)
| CreateTags (Resources : list string) (Tags : list Tag)
| DescribeImages (Filters : list Filter) (Owners : list string)
| DeregisterImage (ImageId : string)
| DeleteSnapshot (SnapshotId : string).

(** What a run leaves behind, in order: the lines it prints and the
    requests it sends to the client of a region. *)
Inductive event :=
| Print (line : string)
| Request (region : string) (r : request).

(** The collaborators: the EC2 service seen through the client of a
    region, and the clock.  Each operation answers from the current world
    and moves it on; [delete_snapshot] answers with the response as
    [print] shows it. *)
Record Cloud := mkCloud {
  world : Type;
  describe_instances :
    string -> list Filter -> world -> Py.result (list Reservation) * world;
  create_image :
    string -> string -> string -> string -> bool -> bool ->
    world -> Py.result string * world;
  create_tags :
    string -> list string -> list Tag -> world -> Py.result unit * world;
  describe_images :
    string -> list Filter -> list string ->
    world -> Py.result (list Image.t) * world;
  deregister_image : string -> string -> world -> Py.result unit * world;
  delete_snapshot : string -> string -> world -> Py.result string * world;
  now : world -> Py.datetime * world
}.

(** ** The monad of the handler: world, exceptions and the event log *)

Module Run.
Import Py.

Section Monad.
Context {C : Cloud}.

Definition M (A : Type) : Type := world C -> result A * world C * list event.

Definition ret {A} (a : A) : M A := fun w => (Ok a, w, []).

Definition raise {A} (e : exn) : M A := fun w => (Raise e, w, []).

Definition bind {A B} (m : M A) (k : A -> M B) : M B :=
  fun w =>
    match m w with
    | (Ok a, w1, t1) => let '(r, w2, t2) := k a w1 in (r, w2, (t1 ++ t2)%list)
    | (Raise e, w1, t1) => (Raise e, w1, t1)
    end.

(** [try: m  except: handler] *)
Definition try_except {A} (m : M A) (handler : exn -> M A) : M A :=
  fun w =>
    match m w with
    | (Ok a, w1, t1) => (Ok a, w1, t1)
    | (Raise e, w1, t1) =>
        let '(r, w2, t2) := handler e w1 in (r, w2, (t1 ++ t2)%list)
    end.

(** A library call that returns or raises without other effect. *)
Definition lift {A} (r : result A) : M A := fun w => (r, w, []).

Definition print (line : string) : M unit := fun w => (Ok tt, w, [Print line]).

(** A request to the client of [region]: logged, then answered. *)
Definition call {A} (region : string) (r : request)
  (op : world C -> result A * world C) : M A :=
  fun w => let '(a, w') := op w in (a, w', [Request region r]).

Definition clock : M datetime := fun w => let '(t, w') := now C w in (Ok t, w', []).

End Monad.
Arguments M : clear implicits.

Declare Scope run_scope.
Delimit Scope run_scope with run.
Notation "x <- m ;; k" := (bind m (fun x => k))
  (at level 61, m at next level, right associativity) : run_scope.
Notation "m ;; k" := (bind m (fun _ => k))
  (at level 61, right associativity) : run_scope.

Section Loops.
Context {C : Cloud}.
Local Open Scope run_scope.

(** [for x in xs: body x] *)
Fixpoint for_each {A} (xs : list A) (body : A -> M C unit) : M C unit :=
  match xs with
  | [] => ret tt
  | x :: rest => body x ;; for_each rest body
  end.

End Loops.

(** The requests among the events of a run, in order. *)
Fixpoint requests (t : list event) : list (string * request) :=
  match t with
  | [] => []
  | Print _ :: rest => requests rest
  | Request region r :: rest => (region, r) :: requests rest
  end.

(** The printed lines among the events of a run, in order. *)
Fixpoint printed (t : list event) : list string :=
  match t with
  | [] => []
  | Print l :: rest => l :: printed rest
  | Request _ _ :: rest => printed rest
  end.

Definition outcome {C : Cloud} {A} (x : result A * world C * list event) : result A :=
  fst (fst x).
Definition final {C : Cloud} {A} (x : result A * world C * list event) : world C :=
  snd (fst x).
Definition events {C : Cloud} {A} (x : result A * world C * list event) : list event :=
  snd x.

End Run.

(** ** [handler.py] *)

Module Handler.
Import Py Calendar Run.
Local Open Scope run_scope.

Definition aws_regions : list string :=
  ["us-east-1"; "us-east-2"; "us-west-1"; "us-west-2";
   "ap-northeast-1"; "ap-northeast-2"; "ap-northeast-3"; "ap-south-1";
   "ap-southeast-1"; "ap-southeast-2"; "ca-central-1";
   "eu-central-1"; "eu-west-1"; "eu-west-2"; "eu-west-3"].

Definition tags_to_find : list string := ["backup"; "Backup"].

Definition default_retention_time : Z := 7.

Definition global_key_to_tag_on : string := "FarleysBackupInstanceRotater".

(** [[t.get('Value') for t in tags if t['Key'] == key]] *)
Definition tag_values (key : string) (tags : list Tag) : list string :=
  map Value (filter (fun t => String.eqb (Key t) key) tags).

(** ['OptInRequired' in str(sys.exc_info())] *)
Definition opt_in_required (e : exn) : bool :=
  Str.contains "OptInRequired" (str_exc_info e).

(** Lines 46 to 52: the instances of all reservations, in order, without
    those whose state is ['terminated']. *)
Fixpoint keep_live (instance_reservation : list Instance.t) (instances : list Instance.t)
  : list Instance.t :=
  match instance_reservation with
  | [] => instances
  | this_instance :: rest =>
      if negb (String.eqb (Instance.State this_instance) "terminated")
      then keep_live rest (instances ++ [this_instance])%list
      else keep_live rest instances
  end.

Fixpoint collect_instances (instance_reservations : list (list Instance.t))
  (instances : list Instance.t) : list Instance.t :=
  match instance_reservations with
  | [] => instances
  | instance_reservation :: rest =>
      collect_instances rest (keep_live instance_reservation instances)
  end.

Definition instances_to_backup (reservations : list Reservation) : list Instance.t :=
  collect_instances (map Instances reservations) [].

(** Lines 60 to 63: the [Name] tag, or the instance id when the lookup fails. *)
Definition instance_name (instance : Instance.t) : string :=
  match tag_values "Name" (Instance.Tags instance) with
  | v :: _ => v
  | [] => Instance.InstanceId instance
  end.

(** [[int(v) for v in values]]: the first failing conversion raises. *)
Fixpoint int_all (values : list string) : result (list Z) :=
  match values with
  | [] => Ok []
  | v :: rest =>
      match int_of_string v with
      | Raise e => Raise e
      | Ok n =>
          match int_all rest with
          | Raise e => Raise e
          | Ok ns => Ok (n :: ns)
          end
      end
  end.

(** Lines 67 to 70: the [Retention] tag as an integer; any failure of the
    comprehension or of the indexing gives the default. *)
Definition retention_days (instance : Instance.t) : Z :=
  match int_all (tag_values "Retention" (Instance.Tags instance)) with
  | Ok (n :: _) => n
  | Ok [] => default_retention_time
  | Raise _ => default_retention_time
  end.

(** Lines 85 to 87: the three tags appended to the instance's tag list.
    The list is extended in place; every listed instance is a value of
    its own and is visited once, so the list sent is the listed tags
    followed by the three. *)
Definition image_tags (instance : Instance.t) (delete_fmt : string) : list Tag :=
  (Instance.Tags instance
   ++ [mkTag "DeleteAfter" delete_fmt;
       mkTag "OriginalInstanceID" (Instance.InstanceId instance);
       mkTag global_key_to_tag_on "true"])%list.

(** [[i['Ebs']['SnapshotId'] for i in ami['BlockDeviceMappings'] if 'Ebs' in i]] *)
Fixpoint snapshots_of (mappings : list BlockDeviceMapping) : list string :=
  match mappings with
  | [] => []
  | i :: rest =>
      match Ebs i with
      | Some snapshot => snapshot :: snapshots_of rest
      | None => snapshots_of rest
      end
  end.

(** Line 76: the [Name] of the image, from the clock reading [t]. *)
Definition image_name (instance : Instance.t) (t : datetime) : string :=
  instance_name instance ++ "-backup-" ++ strftime_YmdHMS t.

(** Line 77: the [Description] of the image. *)
Definition image_description (instance : Instance.t) : string :=
  "Automatic Daily Backup of " ++ instance_name instance ++ " from "
  ++ Instance.InstanceId instance.

Section Procedures.
Context {C : Cloud}.

(** Lines 57 to 91: the body of the loop over the instances. *)
Definition backup_instance (ec2 : string) (instance : Instance.t) : M C unit :=
  let instance_id := Instance.InstanceId instance in
  print ("  Instance: " ++ instance_id) ;;
  print ("      Name: " ++ instance_name instance) ;;
  let retention_days := retention_days instance in
  print ("      Time: " ++ Str.of_Z retention_days ++ " days") ;;
  t <- clock ;;
  let name := image_name instance t in
  let description := image_description instance in
  image_id <- call ec2 (CreateImage instance_id name description true false)
                (create_image C ec2 instance_id name description true false) ;;
  print ("       AMI: " ++ image_id) ;;
  today <- clock ;;
  delete_date <- lift (date_add_days (dt_date today) retention_days) ;;
  let delete_fmt := strftime_mdY delete_date in
  let tags := image_tags instance delete_fmt in
  call ec2 (CreateTags [image_id] tags) (create_tags C ec2 [image_id] tags).

(** Lines 30 to 91. *)
Definition backup_tagged_instances_in_region (ec2 : string) : M C unit :=
  print ("Scanning for instances with tags (" ++ Str.join "," tags_to_find ++ ")") ;;
  let filters := [mkFilter "tag-key" tags_to_find] in
  listing <-
    try_except
      (reservations <- call ec2 (DescribeInstances filters)
                         (describe_instances C ec2 filters) ;;
       ret (Some reservations))
      (fun e =>
         if opt_in_required e
         then print "  Region not activated for this account, skipping..." ;;
              ret None
         else raise e) ;;
  match listing with
  | None => ret tt
  | Some reservations =>
      let instances := instances_to_backup reservations in
      print ("  Found " ++ Str.of_Z (Z.of_nat (List.length instances))
             ++ " instances to backup...") ;;
      for_each instances (backup_instance ec2)
  end.

(** Lines 117 to 144: the body of the loop over the images. *)
Definition expire_ami (ec2 : string) (today_date : struct_time) (ami : Image.t)
  : M C unit :=
  let image_id := Image.ImageId ami in
  print ("  Found AMI to consider: " ++ image_id) ;;
  match tag_values "DeleteAfter" (Image.Tags ami) with
  | [] => print "Unable to find when to delete this image after, skipping..."
  | delete_after :: _ =>
      print ("           Delete After: " ++ delete_after) ;;
      delete_date <- lift (strptime_mdY delete_after) ;;
      if struct_time_le today_date delete_date
      then print "This item is too new, skipping..."
      else
        print (" === DELETING AMI : " ++ image_id) ;;
        try_except
          (call ec2 (DeregisterImage image_id) (deregister_image C ec2 image_id))
          (fun e => print ("Unable to delete AMI: " ++ str_exn e)) ;;
        for_each (snapshots_of (Image.BlockDeviceMappings ami))
          (fun snapshot =>
             print (" === DELETING AMI " ++ image_id ++ " SNAPSHOT : " ++ snapshot) ;;
             result <- call ec2 (DeleteSnapshot snapshot)
                         (delete_snapshot C ec2 snapshot) ;;
             print result)
  end.

(** Lines 97 to 144. *)
Definition delete_expired_amis (ec2 : string) : M C unit :=
  let filters := [mkFilter "tag-key" [global_key_to_tag_on]] in
  listing <-
    try_except
      (print ("Scanning for AMIs with tags (" ++ global_key_to_tag_on ++ ")") ;;
       images <- call ec2 (DescribeImages filters ["self"])
                   (describe_images C ec2 filters ["self"]) ;;
       ret (Some images))
      (fun e =>
         if opt_in_required e
         then print "  Region not activated for this account, skipping..." ;;
              ret None
         else raise e) ;;
  match listing with
  | None => ret tt
  | Some amis_to_consider =>
      t <- clock ;;
      today_date <- lift (strptime_mdY (strftime_mdY (dt_date t))) ;;
      for_each amis_to_consider (expire_ami ec2 today_date)
  end.

(** Lines 154 to 162: the body of the loop over the regions; the client
    of a region is identified by the region's name. *)
Definition scan_region (aws_region : string) : M C unit :=
  let ec2 := aws_region in
  print ("Scanning region: " ++ aws_region) ;;
  backup_tagged_instances_in_region ec2 ;;
  delete_expired_amis ec2.

(** The handler over a list of regions. *)
Definition scan_regions (regions : list string) : M C unit :=
  for_each regions scan_region.

Definition lambda_handler : M C unit := scan_regions aws_regions.

End Procedures.

End Handler.

(** ** What a run did, read off its events *)

Module Observe.
Import Py Run Handler.

(** The instance ids of the [CreateImage] requests, in order. *)
Fixpoint imaged_instances (rs : list (string * request)) : list string :=
  match rs with
  | [] => []
  | (_, CreateImage instance_id _ _ _ _) :: rest =>
      instance_id :: imaged_instances rest
  | _ :: rest => imaged_instances rest
  end.

(** Whether [DeregisterImage] was requested for [image_id] in [region]. *)
Fixpoint deregistered (region image_id : string) (rs : list (string * request)) : bool :=
  match rs with
  | [] => false
  | (r, DeregisterImage i) :: rest =>
      (String.eqb r region && String.eqb i image_id) || deregistered region image_id rest
  | _ :: rest => deregistered region image_id rest
  end.

(** The filters of the marker-tag query (line 36). *)
Definition marker_tag_query : list Filter := [mkFilter "tag-key" tags_to_find].

Definition live (i : Instance.t) : bool :=
  negb (String.eqb (Instance.State i) "terminated").

(** The instances the marker-tag query returns in world [w], all
    reservations together; none when the query fails. *)
Definition listed_instances (C : Cloud) (ec2 : string) (w : world C)
  : list Instance.t :=
  match fst (describe_instances C ec2 marker_tag_query w) with
  | Ok reservations => List.concat (map Instances reservations)
  | Raise _ => []
  end.

(** The snapshots whose deletion is requested when the loop of lines 141
    to 144 runs from world [w]: every snapshot up to and including the
    first one whose deletion fails. *)
Fixpoint attempted_snapshots (C : Cloud) (ec2 : string) (snapshots : list string)
  (w : world C) : list string :=
  match snapshots with
  | [] => []
  | snapshot :: rest =>
      snapshot ::
      match delete_snapshot C ec2 snapshot w with
      | (Ok _, w') => attempted_snapshots C ec2 rest w'
      | (Raise _, _) => []
      end
  end.

(** The EC2 [tag-key] filter: a resource matches when it carries a tag
    whose key is one of the filter's values. *)
Definition tag_key_filter_matches (f : Filter) (tags : list Tag) : bool :=
  String.eqb (Name f) "tag-key"
  && existsb (fun k => existsb (fun t => String.eqb (Key t) k) tags) (Values f).

(** The filter [delete_expired_amis] lists images with (line 102). *)
Definition expiry_listing_filter : Filter :=
  mkFilter "tag-key" [global_key_to_tag_on].

End Observe.

(** ** A scripted EC2 for examples *)

Module Fake.
Import Py Calendar.

(** [faults] lists the listing operations that fail, as region,
    operation and error code. *)
Record script := mkScript {
  faults : list (string * string * string);
  reservations : list Reservation;
  images : list Image.t;
  undeletable_images : list string;
  undeletable_snapshots : list string;
  today : datetime
}.

Definition mem (x : string) (l : list string) : bool := existsb (String.eqb x) l.

Definition client_error (code operation reason : string) : exn :=
  let message :=
    "An error occurred (" ++ code ++ ") when calling the " ++ operation
    ++ " operation: " ++ reason in
  BotoError
    ("(<class 'botocore.exceptions.ClientError'>, ClientError('" ++ message
     ++ "'), <traceback object at 0x7f2b8c0d5c80>)")
    message.

Fixpoint fault_of (region operation : string) (l : list (string * string * string))
  : option string :=
  match l with
  | [] => None
  | (r, o, code) :: rest =>
      if String.eqb r region && String.eqb o operation then Some code
      else fault_of region operation rest
  end.

Definition listing {A} (s : script) (region operation : string) (answer : A)
  : result A :=
  match fault_of region operation (faults s) with
  | Some code =>
      Raise (client_error code operation "The request could not be served.")
  | None => Ok answer
  end.

(** The world counts the images created so far. *)
Definition cloud (s : script) : Cloud :=
  {| world := nat;
     describe_instances := fun region _ n =>
       (listing s region "DescribeInstances" (reservations s), n);
     create_image := fun _ _ _ _ _ _ n =>
       (Ok ("ami-" ++ Str.of_Z (Z.of_nat n)), S n);
     create_tags := fun _ _ _ n => (Ok tt, n);
     describe_images := fun region _ _ n =>
       (listing s region "DescribeImages" (images s), n);
     deregister_image := fun _ image_id n =>
       (if mem image_id (undeletable_images s)
        then Raise (client_error "InvalidAMIID.Unavailable" "DeregisterImage"
                      ("The image ID '" ++ image_id ++ "' is no longer available"))
        else Ok tt, n);
     delete_snapshot := fun _ snapshot n =>
       (if mem snapshot (undeletable_snapshots s)
        then Raise (client_error "InvalidSnapshot.InUse" "DeleteSnapshot"
                      ("The snapshot " ++ snapshot ++ " is currently in use"))
        else Ok "{'ResponseMetadata': {'HTTPStatusCode': 200}}", n);
     now := fun n => (today s, n) |}.

Definition new_year_2024 : datetime := mkdatetime (mkdate 2024 1 1) 3 0 0.

Definition web1 : Instance.t :=
  Instance.mk "i-abc123" "running" [mkTag "backup" "true"; mkTag "Name" "web1"].

Definition db1 : Instance.t :=
  Instance.mk "i-0d1" "stopped"
    [mkTag "Name" "db1"; mkTag "Backup" ""; mkTag "Retention" "14"].

Definition gone : Instance.t :=
  Instance.mk "i-dead" "terminated" [mkTag "backup" "true"].

Definition scratch : Instance.t :=
  Instance.mk "i-5c7" "running" [mkTag "backup" "yes"; mkTag "Retention" "-3"].

Definition marker : Tag := mkTag Handler.global_key_to_tag_on "true".

(** An image past its date, with two snapshots and an instance-store volume. *)
Definition old_image : Image.t :=
  Image.mk "ami-111" [mkTag "DeleteAfter" "12-31-2023"; marker]
    [mkMapping "/dev/sda1" (Some "snap-111"); mkMapping "/dev/sdb" None;
     mkMapping "/dev/sdf" (Some "snap-112")].

Definition older_image : Image.t :=
  Image.mk "ami-100" [mkTag "DeleteAfter" "11-30-2023"; marker]
    [mkMapping "/dev/sda1" (Some "snap-100")].

Definition fresh_image : Image.t :=
  Image.mk "ami-222" [mkTag "Name" "web1"; mkTag "DeleteAfter" "01-01-2024"; marker]
    [mkMapping "/dev/sda1" (Some "snap-222")].

(** An image whose [DeleteAfter] was edited by hand into another format. *)
Definition mistagged_image : Image.t :=
  Image.mk "ami-333" [mkTag "DeleteAfter" "2023-12-31"; marker]
    [mkMapping "/dev/sda1" (Some "snap-333")].

Definition quiet : script :=
  mkScript [] [mkReservation [web1; gone]; mkReservation [db1]]
    [old_image; fresh_image] [] [] new_year_2024.

(** Two regions that are not activated, and two whose listings are refused. *)
Definition patchy : script :=
  mkScript
    [("ap-northeast-3", "DescribeInstances", "OptInRequired");
     ("ap-south-1", "DescribeImages", "OptInRequired");
     ("eu-west-3", "DescribeInstances", "AuthFailure");
     ("eu-west-2", "DescribeImages", "AuthFailure")]
    [mkReservation [web1]] [fresh_image] [] [] new_year_2024.

(** [ami-111] cannot be deregistered. *)
Definition protected_image : script :=
  mkScript [] [] [old_image; older_image] ["ami-111"] [] new_year_2024.

(** [snap-111] is still in use and cannot be deleted. *)
Definition stuck_snapshot : script :=
  mkScript [] [] [old_image; older_image] [] ["snap-111"] new_year_2024.

(** A mistagged image is listed before an expired one. *)
Definition mistagged : script :=
  mkScript [] [] [mistagged_image; old_image] [] [] new_year_2024.

(** An image as the Backup Procedure tags it for [scratch] on
    2024-01-01, seen by a later Expiry run. *)
Definition scratch_image : Image.t :=
  Image.mk "ami-0" (Handler.image_tags scratch "12-29-2023")
    [mkMapping "/dev/xvda" (Some "snap-0a")].

Definition negative_retention : script :=
  mkScript [] [mkReservation [scratch]] [scratch_image] [] [] new_year_2024.

End Fake.

(** ** What the requests of a run may be *)

Module Audit.
Import Py Calendar Run Handler Observe.

(** The images the listing of line 101 returns in world [w]; none when
    the listing fails. *)
Definition listed_images (C : Cloud) (ec2 : string) (w : world C) : list Image.t :=
  match fst (describe_images C ec2 [expiry_listing_filter] ["self"] w) with
  | Ok images => images
  | Raise _ => []
  end.

(** The date line 113 reads: the clock in the world the listing leaves. *)
Definition expiry_today (C : Cloud) (ec2 : string) (w : world C) : date :=
  dt_date
    (fst (now C (snd (describe_images C ec2 [expiry_listing_filter] ["self"] w)))).

(** A request the loop of lines 56 to 91 sends for [instance]: the image,
    made without a reboot and not as a dry run, or the tags of line 88. *)
Definition backup_request (instance : Instance.t) (r : request) : Prop :=
  (exists t,
      r = CreateImage (Instance.InstanceId instance) (image_name instance t)
            (image_description instance) true false)
  \/ (exists image_id delete_date,
         r = CreateTags [image_id] (image_tags instance (strftime_mdY delete_date))).

(** The first [DeleteAfter] tag of the image parses to a date before
    [today]. *)
Definition expired_on (today : date) (ami : Image.t) : bool :=
  match tag_values "DeleteAfter" (Image.Tags ami) with
  | delete_after :: _ =>
      match strptime_mdY delete_after with
      | Ok delete_date => before (date_of delete_date) today
      | Raise _ => false
      end
  | [] => false
  end.

(** [r] deregisters [ami] or deletes one of the snapshots its
    block-device mappings name. *)
Definition deletion_of (ami : Image.t) (r : request) : bool :=
  match r with
  | DeregisterImage image_id => String.eqb image_id (Image.ImageId ami)
  | DeleteSnapshot snapshot =>
      existsb (String.eqb snapshot) (snapshots_of (Image.BlockDeviceMappings ami))
  | _ => false
  end.

(** [r] is a deletion for one of [images] that is expired on [today]. *)
Definition justified (today : date) (images : list Image.t) (r : request) : bool :=
  existsb (fun ami => expired_on today ami && deletion_of ami r) images.

(** The requests that remove an image entirely: its deregistration, then
    the deletion of every snapshot its mappings name. *)
Definition deletions (ec2 : string) (ami : Image.t) : list (string * request) :=
  (ec2, DeregisterImage (Image.ImageId ami))
  :: map (fun s => (ec2, DeleteSnapshot s))
       (snapshots_of (Image.BlockDeviceMappings ami)).

(** The exception of the first snapshot deletion that fails when the
    loop of lines 141 to 144 runs from world [w], if one fails. *)
Fixpoint first_failure (C : Cloud) (ec2 : string) (snapshots : list string)
  (w : world C) : option exn :=
  match snapshots with
  | [] => None
  | snapshot :: rest =>
      match delete_snapshot C ec2 snapshot w with
      | (Ok _, w') => first_failure C ec2 rest w'
      | (Raise e, _) => Some e
      end
  end.

End Audit.

(** ** More cases for examples *)

Module Cases.
Import Py Calendar.

(** An instance to be kept for longer than the calendar lasts. *)
Definition forever : Instance.t :=
  Instance.mk "i-f0e" "running" [mkTag "Backup" "1"; mkTag "Retention" "9999999"].

Definition keeps_forever : Fake.script :=
  Fake.mkScript [] [mkReservation [forever; Fake.web1]] [] [] []
    Fake.new_year_2024.

(** An image as the Backup Procedure tags it for [Fake.db1] on
    2024-01-01. *)
Definition db1_image : Image.t :=
  Image.mk "ami-1" (Handler.image_tags Fake.db1 "01-15-2024")
    [mkMapping "/dev/sda1" (Some "snap-1a")].

Definition untagged_image : Image.t :=
  Image.mk "ami-444" [Fake.marker] [mkMapping "/dev/sda1" (Some "snap-444")].

(** An instance of a CloudFormation stack. *)
Definition stacked : Instance.t :=
  Instance.mk "i-a5c" "running"
    [mkTag "backup" "true"; mkTag "aws:cloudformation:stack-name" "prod"].

(** The scripted EC2 with a quota of images, and refusing tags whose key
    starts with the reserved prefix. *)
Definition guarded (s : Fake.script) (quota : nat) : Cloud :=
  {| world := nat;
     describe_instances := describe_instances (Fake.cloud s);
     create_image := fun _ _ _ _ _ _ n =>
       if Nat.ltb n quota
       then (Ok ("ami-" ++ Str.of_Z (Z.of_nat n)), S n)
       else (Raise (Fake.client_error "ResourceLimitExceeded" "CreateImage"
                      "You have reached your quota of images"), n);
     create_tags := fun _ _ tags n =>
       if existsb (fun t => String.prefix "aws:" (Key t)) tags
       then (Raise (Fake.client_error "InvalidParameterValue" "CreateTags"
                      "Tag keys starting with 'aws:' are reserved for internal use"),
             n)
       else (Ok tt, n);
     describe_images := describe_images (Fake.cloud s);
     deregister_image := deregister_image (Fake.cloud s);
     delete_snapshot := delete_snapshot (Fake.cloud s);
     now := now (Fake.cloud s) |}.

End Cases.

(** * Properties *)

(** ** The calendar *)

Module CalendarFacts.
Import Calendar.

Lemma is_leap_spec y :
  is_leap y = true <-> (y mod 4 = 0 /\ (y mod 100 <> 0 \/ y mod 400 = 0)).
Proof.
  unfold is_leap.
  rewrite andb_true_iff, orb_true_iff, negb_true_iff.
  rewrite !Z.eqb_eq, Z.eqb_neq. tauto.
Qed.

Lemma days_before_year_succ y :
  days_before_year (y + 1) = days_before_year y + days_in_year y.
Proof.
  unfold days_before_year, days_in_year.
  replace (y + 1 - 1) with y by lia.
  destruct (is_leap y) eqn:L.
  - apply is_leap_spec in L. Z.div_mod_to_equations. lia.
  - assert (~ (y mod 4 = 0 /\ (y mod 100 <> 0 \/ y mod 400 = 0))) as N
      by (rewrite <- is_leap_spec, L; discriminate).
    Z.div_mod_to_equations. lia.
Qed.

Lemma days_before_year_mono a b :
  a <= b -> days_before_year a <= days_before_year b.
Proof.
  intros H. destruct (Z.eq_dec a b) as [->|N]; [lia|].
  unfold days_before_year. Z.div_mod_to_equations. lia.
Qed.

Lemma month_cases m :
  1 <= m <= 12 ->
  m = 1 \/ m = 2 \/ m = 3 \/ m = 4 \/ m = 5 \/ m = 6 \/
  m = 7 \/ m = 8 \/ m = 9 \/ m = 10 \/ m = 11 \/ m = 12.
Proof. lia. Qed.

Ltac each_month H :=
  apply month_cases in H;
  repeat (destruct H as [H | H]); subst.

Lemma month_end_in_year y m :
  1 <= m <= 12 ->
  days_before_month y m + days_in_month y m <= days_in_year y.
Proof.
  intros H. unfold days_before_month, days_in_month, days_in_year.
  each_month H; destruct (is_leap y); cbn; lia.
Qed.

Lemma month_end_before_next y m m' :
  1 <= m <= 12 -> 1 <= m' <= 12 -> m < m' ->
  days_before_month y m + days_in_month y m <= days_before_month y m'.
Proof.
  intros H H' L. unfold days_before_month, days_in_month.
  each_month H; each_month H'; try lia; destruct (is_leap y); cbn; lia.
Qed.

Lemma days_before_month_nonneg y m : 0 <= days_before_month y m.
Proof.
  unfold days_before_month, DAYS_BEFORE_MONTH.
  destruct ((2 <? m) && is_leap y); destruct m as [|p|p]; try lia;
    repeat (destruct p as [p|p|]; try lia).
Qed.

Lemma valid_ymd_spec y m d :
  valid_ymd y m d = true <->
  (1 <= y <= 9999 /\ 1 <= m <= 12 /\ 1 <= d <= days_in_month y m).
Proof.
  unfold valid_ymd, MINYEAR, MAXYEAR.
  rewrite !andb_true_iff, !Z.leb_le. tauto.
Qed.

(** Later in the calendar means a larger ordinal. *)
Lemma toordinal_lt a b :
  valid a = true -> valid b = true -> before a b = true ->
  toordinal a < toordinal b.
Proof.
  unfold valid, before, toordinal, ymd2ord.
  destruct a as [ya ma da], b as [yb mb db]; cbn [year month day].
  rewrite !valid_ymd_spec. intros (Hya & Hma & Hda) (Hyb & Hmb & Hdb) H.
  pose proof (days_before_month_nonneg yb mb) as Hnb.
  rewrite orb_true_iff, andb_true_iff, orb_true_iff, andb_true_iff in H.
  rewrite !Z.ltb_lt, !Z.eqb_eq in H.
  destruct H as [Hy | [-> [Hm | [-> Hd]]]].
  - pose proof (month_end_in_year ya ma Hma) as He.
    pose proof (days_before_year_succ ya) as Hs.
    pose proof (days_before_year_mono (ya + 1) yb ltac:(lia)) as Hmono.
    lia.
  - pose proof (month_end_before_next yb ma mb Hma Hmb Hm). lia.
  - lia.
Qed.

Lemma before_irrefl a : before a a = false.
Proof.
  unfold before. rewrite !Z.ltb_irrefl, !Z.eqb_refl. reflexivity.
Qed.

Lemma before_total a b :
  before a b = false -> before b a = false -> a = b.
Proof.
  unfold before. destruct a as [ya ma da], b as [yb mb db]; cbn [year month day].
  rewrite !orb_false_iff, !andb_false_iff, !orb_false_iff, !andb_false_iff.
  rewrite !Z.ltb_ge, !Z.eqb_neq. intros H1 H2.
  assert (ya = yb) by lia. subst.
  assert (ma = mb) by lia. subst.
  assert (da = db) by lia. subst. reflexivity.
Qed.

(** On valid dates the calendar order is the order of the ordinals. *)
Lemma before_iff_ordinal a b :
  valid a = true -> valid b = true ->
  (before a b = true <-> toordinal a < toordinal b).
Proof.
  intros Ha Hb. split; [apply toordinal_lt; assumption|].
  intros L. destruct (before a b) eqn:E; [reflexivity|exfalso].
  destruct (before b a) eqn:E'.
  - pose proof (toordinal_lt b a Hb Ha E'). lia.
  - rewrite (before_total a b E E') in L. lia.
Qed.

(** The month step of [_ord2ymd], checked on every day of a year. *)
Lemma month_and_day_ok_all leap n :
  0 <= n < 365 -> month_and_day_ok leap n = true.
Proof.
  intros H.
  assert (forallb (month_and_day_ok leap) (map Z.of_nat (seq 0 365)) = true) as A
    by (destruct leap; vm_compute; reflexivity).
  rewrite forallb_forall in A. apply A.
  apply in_map_iff. exists (Z.to_nat n). split; [lia|].
  apply in_seq. lia.
Qed.

Lemma month_and_day_spec y n :
  0 <= n < 365 ->
  let '(m, d) := month_and_day (is_leap y) n in
  1 <= m <= 12 /\ 1 <= d <= days_in_month y m /\
  days_before_month y m + d = n + 1.
Proof.
  intros H. pose proof (month_and_day_ok_all (is_leap y) n H) as A.
  unfold month_and_day_ok in A. destruct (month_and_day (is_leap y) n) as [m d].
  rewrite !andb_true_iff, !Z.leb_le, Z.eqb_eq in A.
  destruct A as ((((A1 & A2) & A3) & A4) & A5).
  unfold days_in_month, days_before_month.
  repeat split; try lia.
  destruct ((m =? 2) && is_leap y) eqn:E; [|lia].
  apply andb_true_iff in E. destruct E as [E _]. apply Z.eqb_eq in E. subst m.
  cbn in *. lia.
Qed.

(** [_ord2ymd] inverts [_ymd2ord] and yields a date [date] accepts. *)
Lemma ord2ymd_spec n :
  1 <= n <= MAXORDINAL ->
  valid (ord2ymd n) = true /\ toordinal (ord2ymd n) = n.
Proof.
  unfold MAXORDINAL. intros Hn. unfold ord2ymd, DI400Y, DI100Y, DI4Y.
  set (N := n - 1).
  set (n400 := N / 146097). set (r400 := N mod 146097).
  set (n100 := r400 / 36524). set (r100 := r400 mod 36524).
  set (n4 := r100 / 1461). set (r4 := r100 mod 1461).
  set (n1 := r4 / 365). set (r1 := r4 mod 365).
  assert (0 <= N < 3652059 /\ n = N + 1) as (HN & En) by (unfold N; lia).
  assert (N = 146097 * n400 + r400 /\ 0 <= r400 < 146097) as (E400 & B400)
    by (unfold n400, r400; Z.div_mod_to_equations; lia).
  assert (r400 = 36524 * n100 + r100 /\ 0 <= r100 < 36524) as (E100 & B100)
    by (unfold n100, r100; Z.div_mod_to_equations; lia).
  assert (r100 = 1461 * n4 + r4 /\ 0 <= r4 < 1461) as (E4 & B4)
    by (unfold n4, r4; Z.div_mod_to_equations; lia).
  assert (r4 = 365 * n1 + r1 /\ 0 <= r1 < 365) as (E1 & B1)
    by (unfold n1, r1; Z.div_mod_to_equations; lia).
  clearbody n400 r400 n100 r100 n4 r4 n1 r1 N.
  assert (0 <= n400 <= 24 /\ 0 <= n100 <= 4 /\ 0 <= n4 <= 24 /\ 0 <= n1 <= 4)
    as (? & ? & ? & ?) by lia.
  set (y := n400 * 400 + 1 + n100 * 100 + n4 * 4 + n1).
  destruct ((n1 =? 4) || (n100 =? 4)) eqn:Last.
  - (* the last day of a leap year *)
    assert (is_leap (y - 1) = true /\ days_before_year (y - 1) = N - 365)
      as [L D].
    { rewrite is_leap_spec. unfold days_before_year.
      apply orb_true_iff in Last. rewrite !Z.eqb_eq in Last.
      unfold y. Z.div_mod_to_equations. lia. }
    split.
    + unfold valid. cbn [year month day]. apply valid_ymd_spec.
      unfold days_in_month. rewrite L. cbn.
      apply orb_true_iff in Last. rewrite !Z.eqb_eq in Last. unfold y. lia.
    + unfold toordinal, ymd2ord, days_before_month. cbn [year month day].
      rewrite L, D. cbn. lia.
  - apply orb_false_iff in Last. rewrite !Z.eqb_neq in Last.
    assert (days_before_year y = N - r1) as D.
    { unfold days_before_year, y. Z.div_mod_to_equations. lia. }
    assert ((n1 =? 3) && (negb (n4 =? 24) || (n100 =? 3)) = is_leap y) as L.
    { apply eq_true_iff_eq.
      rewrite is_leap_spec, andb_true_iff, orb_true_iff, negb_true_iff.
      rewrite !Z.eqb_eq, Z.eqb_neq. unfold y. Z.div_mod_to_equations. lia. }
    rewrite L.
    pose proof (month_and_day_spec y r1 B1) as S.
    destruct (month_and_day (is_leap y) r1) as [m d].
    destruct S as (Sm & Sd & So).
    split.
    + unfold valid. cbn [year month day]. apply valid_ymd_spec.
      repeat split; try lia; unfold y; lia.
    + unfold toordinal, ymd2ord. cbn [year month day]. lia.
Qed.

(** The ordinal of a date [date] accepts lies in the calendar. *)
Lemma toordinal_range d : valid d = true -> 1 <= toordinal d <= MAXORDINAL.
Proof.
  intros V.
  destruct (ord2ymd_spec 1 ltac:(unfold MAXORDINAL; lia)) as [V1 O1].
  destruct (ord2ymd_spec MAXORDINAL ltac:(unfold MAXORDINAL; lia)) as [V2 O2].
  assert (before d (ord2ymd 1) = false) as E1.
  { destruct d as [y m dd]. unfold valid in V. cbn [year month day] in V.
    apply valid_ymd_spec in V. vm_compute ord2ymd. unfold before.
    cbn [year month day]. rewrite orb_false_iff, andb_false_iff, orb_false_iff,
      andb_false_iff, !Z.ltb_ge, !Z.eqb_neq. lia. }
  assert (before (ord2ymd MAXORDINAL) d = false) as E2.
  { destruct d as [y m dd]. unfold valid in V. cbn [year month day] in V.
    apply valid_ymd_spec in V. destruct V as (Hy & Hm & Hd).
    assert (dd <= 31).
    { unfold days_in_month in Hd.
      each_month Hm; destruct (is_leap y); cbn in Hd; lia. }
    vm_compute ord2ymd. unfold before.
    cbn [year month day]. rewrite orb_false_iff, andb_false_iff, orb_false_iff,
      andb_false_iff, !Z.ltb_ge, !Z.eqb_neq. lia. }
  split.
  - destruct (Z.lt_ge_cases (toordinal d) 1) as [L|L]; [|lia].
    assert (before d (ord2ymd 1) = true) as X
      by (apply before_iff_ordinal; try assumption; lia).
    congruence.
  - destruct (Z.lt_ge_cases MAXORDINAL (toordinal d)) as [L|L]; [|lia].
    assert (before (ord2ymd MAXORDINAL) d = true) as X
      by (apply before_iff_ordinal; try assumption; lia).
    congruence.
Qed.

End CalendarFacts.

(** ** Parsing and formatting dates *)

Module PyFacts.
Import Calendar Py CalendarFacts.

Lemma digit_cases k :
  0 <= k <= 9 ->
  k = 0 \/ k = 1 \/ k = 2 \/ k = 3 \/ k = 4 \/ k = 5 \/
  k = 6 \/ k = 7 \/ k = 8 \/ k = 9.
Proof. lia. Qed.

Lemma digit_val_char k :
  0 <= k <= 9 -> Str.digit_val (Str.digit_char k) = Some k.
Proof.
  intros H. apply digit_cases in H.
  repeat (destruct H as [H | H]); subst; reflexivity.
Qed.

(** The four digits [%Y] prints are read back as the year. *)
Lemma re_Y_pad4 y : 0 <= y <= 9999 -> re_Y (Str.pad4 y) = [(y, "")].
Proof.
  intros H. unfold re_Y, Str.pad4, Str.pad2.
  rewrite !digit_val_char by (Z.div_mod_to_equations; lia).
  cbn [opt_alt]. do 3 f_equal. Z.div_mod_to_equations. lia.
Qed.

Lemma re_Y_cases s : re_Y s = [] \/ exists y rest, re_Y s = [(y, rest)].
Proof.
  unfold re_Y.
  match goal with |- opt_alt ?o = _ \/ _ => destruct o as [[y rest]|] end.
  - right. exists y, rest. reflexivity.
  - left. reflexivity.
Qed.

Lemma day_cases d :
  1 <= d <= 31 ->
  exists n, (n < 31)%nat /\ d = Z.of_nat (S n).
Proof. intros H. exists (Z.to_nat (d - 1)). lia. Qed.

(** On a string printed with two-digit month and day the pattern has one
    way to match the month and the day, and goes on with the year. *)
Lemma re_mdY_formatted m d tail :
  1 <= m <= 12 -> 1 <= d <= 31 ->
  re_mdY (Str.pad2 m ++ "-" ++ Str.pad2 d ++ "-" ++ tail)
  = map (fun '(y, rest) => (m, d, y, rest)) (re_Y tail).
Proof.
  intros Hm Hd.
  assert (forall n, (n < 31)%nat ->
            re_mdY (Str.pad2 m ++ "-" ++ Str.pad2 (Z.of_nat (S n)) ++ "-" ++ tail)
            = map (fun '(y, rest) => (m, Z.of_nat (S n), y, rest)) (re_Y tail)) as A.
  { destruct (re_Y_cases tail) as [E | (y & rest & E)];
      each_month Hm; intros n Hn;
      do 31 (destruct n as [|n]; [cbv - [re_Y]; rewrite E; reflexivity|]);
      lia. }
  destruct (day_cases d Hd) as (n & Hn & ->). apply A, Hn.
Qed.

Lemma valid_day_le_31 y m d : valid_ymd y m d = true -> 1 <= d <= 31.
Proof.
  rewrite valid_ymd_spec. intros (_ & Hm & Hd). unfold days_in_month in Hd.
  each_month Hm; destruct (is_leap y); cbn in Hd; lia.
Qed.

(** Round trip: a date [date] accepts, printed with ['%m-%d-%Y'], parses
    back to that date at midnight. *)
Lemma strptime_strftime dt :
  valid dt = true -> strptime_mdY (strftime_mdY dt) = Ok (midnight dt).
Proof.
  destruct dt as [y m d]. unfold valid. cbn [year month day]. intros V.
  pose proof (valid_day_le_31 y m d V) as Hd.
  pose proof V as V'. apply valid_ymd_spec in V'. destruct V' as (Hy & Hm & _).
  unfold strptime_mdY, strftime_mdY. cbn [year month day].
  rewrite re_mdY_formatted by assumption.
  rewrite re_Y_pad4 by lia. cbn [map]. rewrite V. reflexivity.
Qed.

(** What a successful parse returns. *)
Lemma strptime_Ok s t :
  strptime_mdY s = Ok t -> valid (date_of t) = true /\ t = midnight (date_of t).
Proof.
  unfold strptime_mdY.
  destruct (re_mdY s) as [|[[[m d] y] rest] l]; [discriminate|].
  destruct rest; [|discriminate].
  destruct (valid_ymd y m d) eqn:V; [|discriminate].
  intros E. injection E as <-. split; [exact V|reflexivity].
Qed.

(** Comparing two parsed dates as tuples is comparing them in the
    calendar: the fields after the day never decide. *)
Lemma midnight_le a b :
  struct_time_le (midnight a) (midnight b) = negb (before b a).
Proof.
  destruct a as [ya ma da], b as [yb mb db].
  unfold struct_time_le, midnight, fields, before. cbn [year month day
    tm_year tm_mon tm_mday tm_hour tm_min tm_sec tm_wday tm_yday tm_isdst tuple_le].
  repeat match goal with
         | |- context [?x =? ?y] => destruct (Z.eqb_spec x y); subst
         | |- context [?x <? ?y] => destruct (Z.ltb_spec x y)
         end;
    cbn; try reflexivity; try lia; congruence.
Qed.

Lemma strptime_le s1 s2 t1 t2 :
  strptime_mdY s1 = Ok t1 -> strptime_mdY s2 = Ok t2 ->
  struct_time_le t1 t2 = negb (before (date_of t2) (date_of t1)).
Proof.
  intros H1 H2.
  apply strptime_Ok in H1. apply strptime_Ok in H2.
  destruct H1 as [_ E1], H2 as [_ E2].
  rewrite E1, E2 at 1. apply midnight_le.
Qed.

Lemma date_of_midnight dt : date_of (midnight dt) = dt.
Proof. destruct dt; reflexivity. Qed.

(** Adding days moves the ordinal by that many days. *)
Lemma date_add_days_Ok d n :
  valid d = true -> 0 < toordinal d + n <= MAXORDINAL ->
  exists d', date_add_days d n = Ok d' /\ valid d' = true
             /\ toordinal d' = toordinal d + n.
Proof.
  intros V R.
  pose proof (toordinal_range d V) as B.
  unfold date_add_days.
  assert ((999999999 <? Z.abs n) = false) as -> by (apply Z.ltb_ge; unfold MAXORDINAL in *; lia).
  assert ((0 <? toordinal d + n) && (toordinal d + n <=? MAXORDINAL) = true) as ->
    by (apply andb_true_iff; rewrite Z.ltb_lt, Z.leb_le; lia).
  destruct (ord2ymd_spec (toordinal d + n) ltac:(lia)) as [V' O'].
  exists (fromordinal (toordinal d + n)). auto.
Qed.

(** A sum that [date] returns is a date of the calendar, that many days
    away. *)
Lemma date_add_days_inv d n d' :
  date_add_days d n = Ok d' ->
  valid d' = true /\ toordinal d' = toordinal d + n.
Proof.
  unfold date_add_days.
  destruct (999999999 <? Z.abs n); [discriminate|].
  destruct ((0 <? toordinal d + n) && (toordinal d + n <=? MAXORDINAL)) eqn:R;
    [|discriminate].
  apply andb_true_iff in R. rewrite Z.ltb_lt, Z.leb_le in R.
  intros E. injection E as <-. apply ord2ymd_spec. lia.
Qed.

(** Beyond the year 9999, and before the year 1, there is no date. *)
Example date_add_days_beyond_the_calendar :
  date_add_days (mkdate 2024 1 1) 9999999
  = Raise (OverflowError "date value out of range")
  /\ date_add_days (mkdate 2024 1 1) (-800000)
     = Raise (OverflowError "date value out of range").
Proof. split; reflexivity. Qed.

End PyFacts.

(** ** Running the procedures *)

Module RunFacts.
Import Py Calendar Run Handler Observe.
Import CalendarFacts PyFacts.

(** Unfold the monad's operations and nothing else. *)
Ltac run :=
  cbv beta iota zeta delta
    [bind ret raise lift print call clock try_except outcome final events].

Ltac run_in H :=
  cbv beta iota zeta delta
    [bind ret raise lift print call clock try_except outcome final events] in H.

Lemma requests_app t1 t2 : requests (t1 ++ t2) = (requests t1 ++ requests t2)%list.
Proof.
  induction t1 as [|[l|region r] t1 IH]; cbn; [reflexivity|assumption|].
  now rewrite IH.
Qed.

Lemma imaged_instances_app r1 r2 :
  imaged_instances (r1 ++ r2) = (imaged_instances r1 ++ imaged_instances r2)%list.
Proof.
  induction r1 as [|[region []] r1 IH]; cbn; try assumption; [reflexivity|].
  now rewrite IH.
Qed.

Section Loop.
Context {C : Cloud} {A : Type} (body : A -> M C unit).

Lemma for_each_cons x rest w :
  for_each (x :: rest) body w
  = match body x w with
    | (Ok _, w1, t1) =>
        let '(r, w2, t2) := for_each rest body w1 in (r, w2, (t1 ++ t2)%list)
    | (Raise e, w1, t1) => (Raise e, w1, t1)
    end.
Proof. reflexivity. Qed.

(** A body that raises ends the loop: the items after it are not visited. *)
Lemma for_each_raise x rest w e w1 t1 :
  body x w = (Raise e, w1, t1) ->
  for_each (x :: rest) body w = (Raise e, w1, t1).
Proof. intros H. rewrite for_each_cons, H. reflexivity. Qed.

(** The loop over [pre ++ post] runs [pre], then [post] from where [pre]
    ended. *)
Lemma for_each_app pre post w :
  for_each (pre ++ post) body w
  = match for_each pre body w with
    | (Ok _, w1, t1) =>
        let '(r, w2, t2) := for_each post body w1 in (r, w2, (t1 ++ t2)%list)
    | (Raise e, w1, t1) => (Raise e, w1, t1)
    end.
Proof.
  revert w. induction pre as [|x pre IH]; intros w.
  - cbn. destruct (for_each post body w) as [[r w2] t2]. reflexivity.
  - rewrite <- app_comm_cons, !for_each_cons.
    destruct (body x w) as [[[[]|e] w1] t1]; [|reflexivity].
    rewrite IH. destruct (for_each pre body w1) as [[[[]|e] w2] t2]; [|reflexivity].
    destruct (for_each post body w2) as [[r w3] t3]. now rewrite app_assoc.
Qed.

End Loop.

(** *** The instances to back up *)

Lemma keep_live_spec l acc :
  keep_live l acc
  = (acc ++ filter (fun i => negb (String.eqb (Instance.State i) "terminated")) l)%list.
Proof.
  revert acc. induction l as [|i l IH]; intros acc; cbn [keep_live filter].
  - now rewrite app_nil_r.
  - destruct (negb (Instance.State i =? "terminated")%string).
    + rewrite IH, <- app_assoc. reflexivity.
    + apply IH.
Qed.

Lemma collect_instances_spec ls acc :
  collect_instances ls acc
  = (acc ++ filter (fun i => negb (String.eqb (Instance.State i) "terminated"))
             (List.concat ls))%list.
Proof.
  revert acc. induction ls as [|l ls IH]; intros acc; cbn [collect_instances List.concat].
  - now rewrite app_nil_r.
  - rewrite IH, keep_live_spec, filter_app, app_assoc. reflexivity.
Qed.

(** *** One instance *)

(** Backing up an instance always sends exactly one [CreateImage], for
    that instance. *)
Lemma backup_instance_imaged (C : Cloud) ec2 instance (w : world C) :
  imaged_instances (requests (events (backup_instance ec2 instance w)))
  = [Instance.InstanceId instance].
Proof.
  unfold backup_instance. run.
  destruct (now C w) as [t w1].
  destruct (create_image C _ _ _ _ _ _ w1) as [[image_id|e] w2]; [|reflexivity].
  destruct (now C w2) as [today w3].
  destruct (date_add_days _ _) as [d|e]; [|reflexivity].
  destruct (create_tags C _ _ _ w3) as [r w4]. reflexivity.
Qed.

Lemma backup_loop_imaged (C : Cloud) ec2 instances (w : world C) :
  exists k,
    imaged_instances (requests (events (for_each instances (backup_instance ec2) w)))
    = firstn k (map Instance.InstanceId instances).
Proof.
  revert w. induction instances as [|i rest IH]; intros w.
  - exists 0%nat. reflexivity.
  - rewrite for_each_cons.
    pose proof (backup_instance_imaged C ec2 i w) as B.
    destruct (backup_instance ec2 i w) as [[[[]|e] w1] t1]; unfold events in *; cbn [snd] in *.
    + destruct (IH w1) as [k Hk].
      destruct (for_each rest (backup_instance ec2) w1) as [[r w2] t2].
      cbn [snd] in *. exists (S k).
      rewrite requests_app, imaged_instances_app, B, Hk. reflexivity.
    + exists 1%nat. rewrite B. reflexivity.
Qed.

Section Backup.
Context (C : Cloud) (ec2 : string) (instance : Instance.t).
Context (w w1 w2 w3 : world C) (t today : datetime) (image_id : string).
Hypothesis first_reading : now C w = (t, w1).
Hypothesis image_created :
  create_image C ec2 (Instance.InstanceId instance) (image_name instance t)
    (image_description instance) true false w1 = (Ok image_id, w2).
Hypothesis second_reading : now C w2 = (today, w3).

(** When the image is created and the date exists, the image is tagged. *)
Lemma backup_instance_tags delete_date :
  date_add_days (dt_date today) (retention_days instance) = Ok delete_date ->
  requests (events (backup_instance ec2 instance w))
  = [(ec2, CreateImage (Instance.InstanceId instance) (image_name instance t)
             (image_description instance) true false);
     (ec2, CreateTags [image_id]
             (image_tags instance (strftime_mdY delete_date)))].
Proof.
  intros A. unfold backup_instance. run.
  rewrite first_reading, image_created, second_reading, A.
  destruct (create_tags C _ _ _ w3) as [r w4]. reflexivity.
Qed.

(** When the date does not exist the error leaves the procedure after
    the image was created, and no tags are sent. *)
Lemma backup_instance_overflow e :
  date_add_days (dt_date today) (retention_days instance) = Raise e ->
  outcome (backup_instance ec2 instance w) = Raise e
  /\ requests (events (backup_instance ec2 instance w))
     = [(ec2, CreateImage (Instance.InstanceId instance) (image_name instance t)
                (image_description instance) true false)].
Proof.
  intros A. unfold backup_instance. run.
  rewrite first_reading, image_created, second_reading, A. split; reflexivity.
Qed.

End Backup.

(** *** Tags *)

Lemma tag_values_app key a b :
  tag_values key (a ++ b) = (tag_values key a ++ tag_values key b)%list.
Proof. unfold tag_values. now rewrite filter_app, map_app. Qed.

Lemma retention_days_absent instance :
  tag_values "Retention" (Instance.Tags instance) = [] ->
  retention_days instance = default_retention_time.
Proof. intros T. unfold retention_days. rewrite T. reflexivity. Qed.

Lemma retention_days_integer instance v n :
  tag_values "Retention" (Instance.Tags instance) = [v] ->
  int_of_string v = Ok n ->
  retention_days instance = n.
Proof. intros T I. unfold retention_days. rewrite T. cbn. rewrite I. reflexivity. Qed.

Lemma retention_days_not_integer instance v e :
  tag_values "Retention" (Instance.Tags instance) = [v] ->
  int_of_string v = Raise e ->
  retention_days instance = default_retention_time.
Proof. intros T I. unfold retention_days. rewrite T. cbn. rewrite I. reflexivity. Qed.

(** The tags sent for an image carry the management marker. *)
Lemma image_tags_match_listing instance delete_fmt :
  tag_key_filter_matches expiry_listing_filter (image_tags instance delete_fmt) = true.
Proof.
  unfold tag_key_filter_matches, expiry_listing_filter, image_tags.
  cbn [Name Values existsb]. rewrite existsb_app. cbn.
  rewrite !orb_true_r. reflexivity.
Qed.

Lemma image_tags_delete_after instance delete_fmt :
  tag_values "DeleteAfter" (image_tags instance delete_fmt)
  = (tag_values "DeleteAfter" (Instance.Tags instance) ++ [delete_fmt])%list.
Proof. unfold image_tags. rewrite tag_values_app. reflexivity. Qed.

(** *** Listing images *)

(** The Expiry Procedure starts by asking for the images of the region. *)
Lemma delete_expired_amis_lists (C : Cloud) ec2 (w : world C) :
  exists rest,
    requests (events (delete_expired_amis ec2 w))
    = (ec2, DescribeImages [expiry_listing_filter] ["self"]) :: rest.
Proof.
  unfold delete_expired_amis, expiry_listing_filter. run.
  destruct (describe_images C ec2 _ _ w) as [[amis|e] w1].
  - destruct (now C w1) as [t w2].
    destruct (strptime_mdY _) as [today_date|e].
    + destruct (for_each _ _ w2) as [[r w3] t3]. eexists. reflexivity.
    + eexists. reflexivity.
  - destruct (opt_in_required e); eexists; reflexivity.
Qed.

(** *** One image *)

Section Expire.
Context (C : Cloud) (ec2 : string) (today_date : struct_time) (ami : Image.t).

(** The loop of lines 141 to 144 requests one deletion per snapshot and
    stops at the first that fails. *)
Lemma snapshot_loop_requests image_id snapshots (w : world C) :
  requests
    (events
       (for_each snapshots
          (fun snapshot =>
             bind (print (" === DELETING AMI " ++ image_id ++ " SNAPSHOT : " ++ snapshot))
               (fun _ =>
                  bind (call ec2 (DeleteSnapshot snapshot)
                          (delete_snapshot C ec2 snapshot))
                    (fun result => print result))) w))
  = map (fun s => (ec2, DeleteSnapshot s)) (attempted_snapshots C ec2 snapshots w).
Proof.
  revert w. induction snapshots as [|s rest IH]; intros w; [reflexivity|].
  rewrite for_each_cons. run. cbn [attempted_snapshots].
  destruct (delete_snapshot C ec2 s w) as [[result|e] w1]; [|reflexivity].
  specialize (IH w1). unfold events in IH.
  destruct (for_each rest _ w1) as [[r w2] t2]. cbn [snd] in *.
  cbn [app requests map]. rewrite IH. reflexivity.
Qed.

Lemma expire_ami_untagged (w : world C) :
  tag_values "DeleteAfter" (Image.Tags ami) = [] ->
  expire_ami ec2 today_date ami w
  = (Ok tt, w,
     [Print ("  Found AMI to consider: " ++ Image.ImageId ami);
      Print "Unable to find when to delete this image after, skipping..."]).
Proof. intros T. unfold expire_ami. rewrite T. reflexivity. Qed.

Section Tagged.
Context (delete_after : string) (others : list string).
Hypothesis tagged :
  tag_values "DeleteAfter" (Image.Tags ami) = delete_after :: others.

Lemma expire_ami_unparseable e (w : world C) :
  strptime_mdY delete_after = Raise e ->
  expire_ami ec2 today_date ami w
  = (Raise e, w,
     [Print ("  Found AMI to consider: " ++ Image.ImageId ami);
      Print ("           Delete After: " ++ delete_after)]).
Proof. intros P. unfold expire_ami. rewrite tagged. run. rewrite P. reflexivity. Qed.

Lemma expire_ami_too_new delete_date (w : world C) :
  strptime_mdY delete_after = Ok delete_date ->
  struct_time_le today_date delete_date = true ->
  expire_ami ec2 today_date ami w
  = (Ok tt, w,
     [Print ("  Found AMI to consider: " ++ Image.ImageId ami);
      Print ("           Delete After: " ++ delete_after);
      Print "This item is too new, skipping..."]).
Proof.
  intros P L. unfold expire_ami. rewrite tagged. run. rewrite P, L. reflexivity.
Qed.

Lemma expire_ami_expired delete_date (w : world C) :
  strptime_mdY delete_after = Ok delete_date ->
  struct_time_le today_date delete_date = false ->
  requests (events (expire_ami ec2 today_date ami w))
  = (ec2, DeregisterImage (Image.ImageId ami))
    :: map (fun s => (ec2, DeleteSnapshot s))
         (attempted_snapshots C ec2 (snapshots_of (Image.BlockDeviceMappings ami))
            (snd (deregister_image C ec2 (Image.ImageId ami) w))).
Proof.
  intros P L. unfold expire_ami. rewrite tagged.
  pose proof (snapshot_loop_requests (Image.ImageId ami)
                (snapshots_of (Image.BlockDeviceMappings ami))) as S.
  run. run_in S. rewrite P, L.
  destruct (deregister_image C ec2 (Image.ImageId ami) w) as [[[]|e] w1]; cbn [snd];
    specialize (S w1);
    destruct (for_each _ _ w1) as [[r w2] t2]; cbn [snd] in *;
    cbn [app requests]; rewrite S; reflexivity.
Qed.

(** A failed deregistration is printed and not raised. *)
Lemma expire_ami_deregister_failed delete_date e (w w1 : world C) :
  strptime_mdY delete_after = Ok delete_date ->
  struct_time_le today_date delete_date = false ->
  deregister_image C ec2 (Image.ImageId ami) w = (Raise e, w1) ->
  In ("Unable to delete AMI: " ++ str_exn e)
     (printed (events (expire_ami ec2 today_date ami w))).
Proof.
  intros P L D. unfold expire_ami. rewrite tagged. run. rewrite P, L, D.
  destruct (for_each _ _ w1) as [[r w2] t2]. cbn. auto.
Qed.

End Tagged.

End Expire.

(** With today's date parsed as line 113 does: an image dated before
    today is deregistered, one dated today or later is left alone. *)
Lemma expire_ami_decision (C : Cloud) ec2 today ami delete_after others
  delete_date (w : world C) :
  tag_values "DeleteAfter" (Image.Tags ami) = delete_after :: others ->
  strptime_mdY delete_after = Ok delete_date ->
  (before (date_of delete_date) today = true ->
   deregistered ec2 (Image.ImageId ami)
     (requests (events (expire_ami ec2 (midnight today) ami w))) = true)
  /\ (before (date_of delete_date) today = false ->
      requests (events (expire_ami ec2 (midnight today) ami w)) = []).
Proof.
  intros T P.
  assert (struct_time_le (midnight today) delete_date
          = negb (before (date_of delete_date) today)) as L.
  { destruct (strptime_Ok _ _ P) as [_ E]. rewrite E at 1. apply midnight_le. }
  split; intros B; rewrite B in L; cbn [negb] in L.
  - rewrite (expire_ami_expired C ec2 _ ami delete_after others T delete_date w P L).
    cbn [deregistered]. rewrite !String.eqb_refl. reflexivity.
  - rewrite (expire_ami_too_new C ec2 _ ami delete_after others T delete_date w P L).
    reflexivity.
Qed.


End RunFacts.

(** ** Every request of a run *)

Module AuditFacts.
Import Py Calendar Run Handler Observe Audit.
Import CalendarFacts PyFacts RunFacts.

(** What holds of the requests of every turn of a loop holds of the
    requests of the loop. *)
Lemma for_each_requests_Forall {C : Cloud} {A : Type} (body : A -> M C unit)
  (Q : string * request -> Prop) (xs : list A) :
  (forall x w, In x xs -> Forall Q (requests (events (body x w)))) ->
  forall w, Forall Q (requests (events (for_each xs body w))).
Proof.
  induction xs as [|x rest IH]; intros H w; [constructor|].
  rewrite for_each_cons.
  pose proof (H x w (or_introl eq_refl)) as Hx.
  destruct (body x w) as [[[[]|e] w1] t1]; unfold events in *; cbn [snd] in *;
    [|exact Hx].
  assert (forall y w', In y rest -> Forall Q (requests (snd (body y w')))) as H'
    by (intros y w' Hy; apply H; right; exact Hy).
  specialize (IH H' w1).
  destruct (for_each rest body w1) as [[r w2] t2]. cbn [snd] in *.
  rewrite requests_app. apply Forall_app. split; assumption.
Qed.

(** The requests for one instance. *)
Lemma backup_instance_requests (C : Cloud) ec2 instance (w : world C) :
  Forall (fun rq => fst rq = ec2 /\ backup_request instance (snd rq))
    (requests (events (backup_instance ec2 instance w))).
Proof.
  unfold backup_instance. run.
  destruct (now C w) as [t w1].
  assert (backup_request instance
            (CreateImage (Instance.InstanceId instance) (image_name instance t)
               (image_description instance) true false)) as Img
    by (left; exists t; reflexivity).
  destruct (create_image C _ _ _ _ _ _ w1) as [[image_id|e] w2];
    [|cbn [requests app]; constructor; [split; [reflexivity|exact Img]|constructor]].
  destruct (now C w2) as [today w3].
  destruct (date_add_days _ _) as [d|e];
    [|cbn [requests app]; constructor; [split; [reflexivity|exact Img]|constructor]].
  destruct (create_tags C _ _ _ w3) as [r w4].
  cbn [requests app].
  constructor; [split; [reflexivity|exact Img]|].
  constructor; [split; [reflexivity|]|constructor].
  right. exists image_id, d. reflexivity.
Qed.

(** The snapshots whose deletion is requested are snapshots of the
    image, from the first on. *)
Lemma attempted_snapshots_incl (C : Cloud) ec2 snapshots (w : world C) :
  incl (attempted_snapshots C ec2 snapshots w) snapshots.
Proof.
  revert w. induction snapshots as [|s rest IH]; intros w; [apply incl_refl|].
  cbn [attempted_snapshots].
  destruct (delete_snapshot C ec2 s w) as [[result|e] w1].
  - apply incl_cons; [left; reflexivity|]. apply incl_tl, IH.
  - apply incl_cons; [left; reflexivity|]. intros x [].
Qed.

(** The outcome of the snapshot loop is its first failure. *)
Lemma snapshot_loop_outcome (C : Cloud) ec2 image_id snapshots (w : world C) :
  outcome
    (for_each snapshots
       (fun snapshot =>
          bind (print (" === DELETING AMI " ++ image_id ++ " SNAPSHOT : " ++ snapshot))
            (fun _ =>
               bind (call ec2 (DeleteSnapshot snapshot)
                       (delete_snapshot C ec2 snapshot))
                 (fun result => print result))) w)
  = match first_failure C ec2 snapshots w with
    | Some e => Raise e
    | None => Ok tt
    end
  /\ (first_failure C ec2 snapshots w = None ->
      attempted_snapshots C ec2 snapshots w = snapshots).
Proof.
  revert w. induction snapshots as [|s rest IH]; intros w; [split; reflexivity|].
  rewrite for_each_cons. run. cbn [first_failure attempted_snapshots].
  destruct (delete_snapshot C ec2 s w) as [[result|e] w1].
  - destruct (IH w1) as [O A]. unfold outcome in O.
    destruct (for_each rest _ w1) as [[r w2] t2]. cbn [fst] in *.
    split; [exact O|]. intros N. rewrite (A N). reflexivity.
  - split; [reflexivity|discriminate].
Qed.

Lemma expired_on_spec today ami delete_after others delete_date :
  tag_values "DeleteAfter" (Image.Tags ami) = delete_after :: others ->
  strptime_mdY delete_after = Ok delete_date ->
  expired_on today ami = negb (struct_time_le (midnight today) delete_date).
Proof.
  intros T P. unfold expired_on. rewrite T, P.
  destruct (strptime_Ok _ _ P) as [_ E]. rewrite E at 2.
  rewrite midnight_le, negb_involutive. reflexivity.
Qed.

(** The requests for one image: none, or deletions the image's date
    justifies. *)
Lemma expire_ami_requests (C : Cloud) ec2 today ami (w : world C) :
  Forall (fun rq => fst rq = ec2
                    /\ expired_on today ami && deletion_of ami (snd rq) = true)
    (requests (events (expire_ami ec2 (midnight today) ami w))).
Proof.
  destruct (tag_values "DeleteAfter" (Image.Tags ami)) as [|v others] eqn:T.
  - rewrite (expire_ami_untagged C ec2 _ ami w T). constructor.
  - destruct (strptime_mdY v) as [dd|e] eqn:P.
    + pose proof (expired_on_spec today ami v others dd T P) as X.
      destruct (struct_time_le (midnight today) dd) eqn:L.
      * rewrite (expire_ami_too_new C ec2 _ ami v others T dd w P L). constructor.
      * rewrite (expire_ami_expired C ec2 _ ami v others T dd w P L).
        cbn [negb] in X. rewrite X. constructor.
        -- split; [reflexivity|]. cbn. apply String.eqb_refl.
        -- apply Forall_forall. intros rq Hin. apply in_map_iff in Hin.
           destruct Hin as (s & <- & Hs). split; [reflexivity|].
           cbn. apply existsb_exists. exists s.
           split; [|apply String.eqb_refl].
           exact (attempted_snapshots_incl C ec2 _ _ s Hs).
    + rewrite (expire_ami_unparseable C ec2 _ ami v others T e w P). constructor.
Qed.

(** Whatever date it compares with, the loop body for an image only
    sends requests to its own client. *)
Lemma expire_ami_own_client (C : Cloud) ec2 today_date ami (w : world C) :
  Forall (fun rq => fst rq = ec2)
    (requests (events (expire_ami ec2 today_date ami w))).
Proof.
  destruct (tag_values "DeleteAfter" (Image.Tags ami)) as [|v others] eqn:T.
  - rewrite (expire_ami_untagged C ec2 _ ami w T). constructor.
  - destruct (strptime_mdY v) as [dd|e] eqn:P.
    + destruct (struct_time_le today_date dd) eqn:L.
      * rewrite (expire_ami_too_new C ec2 _ ami v others T dd w P L). constructor.
      * rewrite (expire_ami_expired C ec2 _ ami v others T dd w P L).
        constructor; [reflexivity|].
        apply Forall_forall. intros rq Hin. apply in_map_iff in Hin.
        destruct Hin as (s & <- & _). reflexivity.
    + rewrite (expire_ami_unparseable C ec2 _ ami v others T e w P). constructor.
Qed.

(** The Backup Procedure: the listing, then requests for the live
    instances it listed. *)
Lemma backup_requests (C : Cloud) ec2 (w : world C) :
  exists rest,
    requests (events (backup_tagged_instances_in_region ec2 w))
    = (ec2, DescribeInstances marker_tag_query) :: rest
    /\ Forall (fun rq =>
                 fst rq = ec2
                 /\ exists instance,
                     In instance (filter live (listed_instances C ec2 w))
                     /\ backup_request instance (snd rq))
         rest.
Proof.
  unfold backup_tagged_instances_in_region, listed_instances, marker_tag_query.
  run.
  destruct (describe_instances C ec2 _ w) as [[reservations|e] w1]; cbn [fst].
  - assert (instances_to_backup reservations
            = filter live (List.concat (map Instances reservations))) as F
      by (unfold instances_to_backup; now rewrite collect_instances_spec).
    pose proof (@for_each_requests_Forall C _ (backup_instance ec2)
                  (fun rq =>
                     fst rq = ec2
                     /\ exists instance,
                         In instance (instances_to_backup reservations)
                         /\ backup_request instance (snd rq))
                  (instances_to_backup reservations)) as L.
    assert (forall x (w0 : world C),
               In x (instances_to_backup reservations) ->
               Forall (fun rq =>
                         fst rq = ec2
                         /\ exists instance,
                             In instance (instances_to_backup reservations)
                             /\ backup_request instance (snd rq))
                 (requests (events (backup_instance ec2 x w0)))) as B.
    { intros x w0 Hx.
      eapply Forall_impl; [|apply backup_instance_requests].
      intros rq [R1 R2]. split; [exact R1|]. exists x. split; assumption. }
    specialize (L B w1). unfold events in L.
    destruct (for_each _ _ w1) as [[r w2] t2]. cbn [snd] in L.
    eexists. split; [reflexivity|]. rewrite <- F. exact L.
  - destruct (opt_in_required e); eexists; (split; [reflexivity|constructor]).
Qed.

(** The Expiry Procedure only sends requests to its own client. *)
Lemma expiry_own_client (C : Cloud) ec2 (w : world C) :
  Forall (fun rq => fst rq = ec2) (requests (events (delete_expired_amis ec2 w))).
Proof.
  unfold delete_expired_amis. run.
  destruct (describe_images C ec2 _ _ w) as [[amis|e] w1].
  - destruct (now C w1) as [t w2].
    destruct (strptime_mdY _) as [today_date|e].
    + pose proof (@for_each_requests_Forall C _ (expire_ami ec2 today_date)
                    (fun rq => fst rq = ec2) amis
                    (fun x w0 _ => expire_ami_own_client C ec2 today_date x w0) w2)
        as L.
      unfold events in L. destruct (for_each _ _ w2) as [[r w3] t3].
      cbn [snd] in L. constructor; [reflexivity|exact L].
    + repeat constructor.
  - destruct (opt_in_required e); repeat constructor.
Qed.

(** An expired image: the outcome is the first failure among the
    snapshot deletions, whatever the deregistration answered. *)
Lemma expire_ami_expired_outcome (C : Cloud) ec2 today_date ami delete_after
  others delete_date (w : world C) :
  tag_values "DeleteAfter" (Image.Tags ami) = delete_after :: others ->
  strptime_mdY delete_after = Ok delete_date ->
  struct_time_le today_date delete_date = false ->
  outcome (expire_ami ec2 today_date ami w)
  = match first_failure C ec2 (snapshots_of (Image.BlockDeviceMappings ami))
            (snd (deregister_image C ec2 (Image.ImageId ami) w)) with
    | Some e => Raise e
    | None => Ok tt
    end.
Proof.
  intros T P L. unfold expire_ami. rewrite T.
  pose proof (snapshot_loop_outcome C ec2 (Image.ImageId ami)
                (snapshots_of (Image.BlockDeviceMappings ami))) as S.
  run. run_in S. rewrite P, L.
  destruct (deregister_image C ec2 (Image.ImageId ami) w) as [[[]|e] w1]; cbn [snd];
    destruct (S w1) as [O _];
    destruct (for_each _ _ w1) as [[r w2] t2]; cbn [fst] in *; exact O.
Qed.

(** Outside the calendar there is no sum. *)
Lemma date_add_days_overflow d n :
  ~ (0 < toordinal d + n <= MAXORDINAL) ->
  exists message, date_add_days d n = Raise (OverflowError message).
Proof.
  intros R. unfold date_add_days.
  destruct (999999999 <? Z.abs n); [eexists; reflexivity|].
  destruct ((0 <? toordinal d + n) && (toordinal d + n <=? MAXORDINAL)) eqn:B;
    [|eexists; reflexivity].
  apply andb_true_iff in B. rewrite Z.ltb_lt, Z.leb_le in B. contradiction.
Qed.

(** A loop whose first turn raises sends what that turn sent. *)
Lemma for_each_raise_outcome {C : Cloud} {A : Type} (body : A -> M C unit)
  x rest (w : world C) e :
  outcome (body x w) = Raise e ->
  outcome (for_each (x :: rest) body w) = Raise e
  /\ requests (events (for_each (x :: rest) body w))
     = requests (events (body x w)).
Proof.
  intros O. rewrite for_each_cons. unfold outcome, events in *.
  destruct (body x w) as [[[[]|e'] w1] t1]; cbn [fst snd] in *; [discriminate|].
  split; [exact O|reflexivity].
Qed.

(** When no snapshot deletion ever fails, none fails in the loop. *)
Lemma first_failure_none (C : Cloud) ec2 snapshots (w : world C) :
  (forall s w0, exists result w', delete_snapshot C ec2 s w0 = (Ok result, w')) ->
  first_failure C ec2 snapshots w = None.
Proof.
  intros H. revert w. induction snapshots as [|s rest IH]; intros w; [reflexivity|].
  cbn [first_failure]. destruct (H s w) as (result & w' & ->). apply IH.
Qed.

Lemma length_requests_app t1 t2 :
  List.length (requests (t1 ++ t2))
  = (List.length (requests t1) + List.length (requests t2))%nat.
Proof. now rewrite requests_app, length_app. Qed.

Section AllGoesWell.
Context (C : Cloud) (ec2 : string).
Hypothesis images_are_created :
  forall instance_id name description (w : world C),
  exists image_id w',
    create_image C ec2 instance_id name description true false w = (Ok image_id, w').
Hypothesis tags_are_accepted :
  forall resources tags (w : world C),
  exists w', create_tags C ec2 resources tags w = (Ok tt, w').
Hypothesis clock_shows_a_date :
  forall w : world C, valid (dt_date (fst (now C w))) = true.

(** One instance, when every request is served and the date exists. *)
Lemma backup_instance_served instance (w : world C) :
  (forall w0 : world C,
      0 < toordinal (dt_date (fst (now C w0))) + retention_days instance
      <= MAXORDINAL) ->
  outcome (backup_instance ec2 instance w) = Ok tt
  /\ imaged_instances (requests (events (backup_instance ec2 instance w)))
     = [Instance.InstanceId instance]
  /\ List.length (requests (events (backup_instance ec2 instance w))) = 2%nat.
Proof.
  intros R. split; [|split; [apply backup_instance_imaged|]];
    unfold backup_instance; run.
  - destruct (now C w) as [t w1].
    destruct (images_are_created (Instance.InstanceId instance)
                (image_name instance t) (image_description instance) w1)
      as (image_id & w2 & ->).
    pose proof (clock_shows_a_date w2) as V. pose proof (R w2) as R2.
    destruct (now C w2) as [today w3]. cbn [fst] in V, R2.
    destruct (date_add_days_Ok _ _ V R2) as (d & -> & _).
    destruct (tags_are_accepted [image_id] (image_tags instance (strftime_mdY d)) w3)
      as (w4 & ->).
    reflexivity.
  - destruct (now C w) as [t w1].
    destruct (images_are_created (Instance.InstanceId instance)
                (image_name instance t) (image_description instance) w1)
      as (image_id & w2 & ->).
    pose proof (clock_shows_a_date w2) as V. pose proof (R w2) as R2.
    destruct (now C w2) as [today w3]. cbn [fst] in V, R2.
    destruct (date_add_days_Ok _ _ V R2) as (d & -> & _).
    destruct (tags_are_accepted [image_id] (image_tags instance (strftime_mdY d)) w3)
      as (w4 & ->).
    reflexivity.
Qed.

Lemma backup_loop_served instances (w : world C) :
  (forall instance (w0 : world C),
      In instance instances ->
      0 < toordinal (dt_date (fst (now C w0))) + retention_days instance
      <= MAXORDINAL) ->
  outcome (for_each instances (backup_instance ec2) w) = Ok tt
  /\ imaged_instances
       (requests (events (for_each instances (backup_instance ec2) w)))
     = map Instance.InstanceId instances
  /\ List.length (requests (events (for_each instances (backup_instance ec2) w)))
     = (2 * List.length instances)%nat.
Proof.
  revert w. induction instances as [|i rest IH]; intros w R.
  - repeat split.
  - rewrite for_each_cons.
    destruct (backup_instance_served i w
                (fun w0 => R i w0 (or_introl eq_refl))) as (O & Im & Len).
    unfold outcome, events in *.
    destruct (backup_instance ec2 i w) as [[r w1] t1]. cbn [fst snd] in *.
    subst r.
    destruct (IH w1 (fun x w0 Hx => R x w0 (or_intror Hx))) as (O' & Im' & Len').
    destruct (for_each rest (backup_instance ec2) w1) as [[r w2] t2].
    cbn [fst snd] in *.
    split; [exact O'|]. split.
    + rewrite requests_app, imaged_instances_app, Im, Im'. reflexivity.
    + rewrite length_requests_app, Len, Len'. cbn [List.length]. lia.
Qed.

End AllGoesWell.

Section SnapshotsGo.
Context (C : Cloud) (ec2 : string) (today : date).
Hypothesis snapshots_are_deleted :
  forall s (w : world C),
  exists result w', delete_snapshot C ec2 s w = (Ok result, w').

(** One image, when its date can be read and its snapshots go. *)
Lemma expire_ami_served ami (w : world C) :
  (forall v others,
      tag_values "DeleteAfter" (Image.Tags ami) = v :: others ->
      exists dd, strptime_mdY v = Ok dd) ->
  outcome (expire_ami ec2 (midnight today) ami w) = Ok tt
  /\ requests (events (expire_ami ec2 (midnight today) ami w))
     = if expired_on today ami then deletions ec2 ami else [].
Proof.
  intros Parse.
  destruct (tag_values "DeleteAfter" (Image.Tags ami)) as [|v others] eqn:T.
  - rewrite (expire_ami_untagged C ec2 _ ami w T).
    unfold expired_on. rewrite T. split; reflexivity.
  - destruct (Parse v others eq_refl) as [dd P].
    rewrite (expired_on_spec today ami v others dd T P).
    destruct (struct_time_le (midnight today) dd) eqn:L; cbn [negb].
    + rewrite (expire_ami_too_new C ec2 _ ami v others T dd w P L).
      split; reflexivity.
    + pose proof (first_failure_none C ec2
                    (snapshots_of (Image.BlockDeviceMappings ami))
                    (snd (deregister_image C ec2 (Image.ImageId ami) w))
                    snapshots_are_deleted) as N.
      split.
      * rewrite (expire_ami_expired_outcome C ec2 _ ami v others dd w T P L), N.
        reflexivity.
      * rewrite (expire_ami_expired C ec2 _ ami v others T dd w P L).
        destruct (snapshot_loop_outcome C ec2 (Image.ImageId ami)
                    (snapshots_of (Image.BlockDeviceMappings ami))
                    (snd (deregister_image C ec2 (Image.ImageId ami) w)))
          as [_ A].
        rewrite (A N). reflexivity.
Qed.

Lemma expire_loop_served images (w : world C) :
  (forall ami v others,
      In ami images ->
      tag_values "DeleteAfter" (Image.Tags ami) = v :: others ->
      exists dd, strptime_mdY v = Ok dd) ->
  outcome (for_each images (expire_ami ec2 (midnight today)) w) = Ok tt
  /\ requests (events (for_each images (expire_ami ec2 (midnight today)) w))
     = flat_map (deletions ec2) (filter (expired_on today) images).
Proof.
  revert w. induction images as [|ami rest IH]; intros w Parse.
  - split; reflexivity.
  - rewrite for_each_cons.
    destruct (expire_ami_served ami w
                (fun v others => Parse ami v others (or_introl eq_refl)))
      as [O R].
    unfold outcome, events in *.
    destruct (expire_ami ec2 (midnight today) ami w) as [[r w1] t1].
    cbn [fst snd] in *. subst r.
    destruct (IH w1 (fun a v others Ha => Parse a v others (or_intror Ha)))
      as [O' R'].
    destruct (for_each rest _ w1) as [[r w2] t2]. cbn [fst snd] in *.
    split; [exact O'|].
    rewrite requests_app, R, R'. cbn [filter].
    destruct (expired_on today ami); reflexivity.
Qed.

End SnapshotsGo.

(** *** Integers written and read *)

Lemma digit_char_not_space d : 0 <= d <= 9 -> is_space (Str.digit_char d) = false.
Proof.
  intros H. apply digit_cases in H.
  repeat (destruct H as [H | H]); subst; reflexivity.
Qed.

Lemma lstrip_no_space l :
  Forall (fun c => is_space c = false) l -> lstrip l = l.
Proof. intros [|c l' Hc _]; [reflexivity|]. cbn [lstrip]. now rewrite Hc. Qed.

Lemma strip_no_space l :
  Forall (fun c => is_space c = false) l -> strip l = l.
Proof.
  intros H. unfold strip. rewrite (lstrip_no_space l H).
  rewrite lstrip_no_space by (apply Forall_rev, H). apply rev_involutive.
Qed.

Lemma digits_fuel_S f n acc :
  Str.digits_fuel (S f) n acc
  = if n <? 10 then String (Str.digit_char (n mod 10)) acc
    else Str.digits_fuel f (n / 10) (String (Str.digit_char (n mod 10)) acc).
Proof. reflexivity. Qed.

(** The digits written for a number: they are digits, the first one
    stands at the head, and read back they continue the number read so
    far. *)
Lemma digits_fuel_spec f n acc :
  0 <= n < 2 ^ Z.of_nat (S f) ->
  (Forall (fun c => is_space c = false) (list_ascii_of_string acc) ->
   Forall (fun c => is_space c = false)
     (list_ascii_of_string (Str.digits_fuel (S f) n acc)))
  /\ (exists d rest,
         0 <= d <= 9 /\ Str.digits_fuel (S f) n acc = String (Str.digit_char d) rest)
  /\ (forall p a,
         exists k,
           0 <= k
           /\ int_digits (list_ascii_of_string (Str.digits_fuel (S f) n acc)) p a
              = int_digits (list_ascii_of_string acc) true (a * 10 ^ k + n)).
Proof.
  revert n acc. induction f as [|f IH]; intros n acc B.
  - assert (n < 10) as Small by (cbn in B; lia).
    rewrite digits_fuel_S. apply Z.ltb_lt in Small. rewrite Small.
    apply Z.ltb_lt in Small.
    assert (n mod 10 = n) as -> by (apply Z.mod_small; lia).
    split; [|split].
    + intros F. cbn [list_ascii_of_string]. constructor; [|exact F].
      apply digit_char_not_space. lia.
    + exists n, acc. split; [lia|reflexivity].
    + intros p a. exists 1. split; [lia|].
      cbn [list_ascii_of_string int_digits].
      rewrite digit_val_char by lia. f_equal; lia.
  - rewrite (digits_fuel_S (S f)). destruct (n <? 10) eqn:Small.
    + apply Z.ltb_lt in Small.
      assert (n mod 10 = n) as -> by (apply Z.mod_small; lia).
      split; [|split].
      * intros F. cbn [list_ascii_of_string]. constructor; [|exact F].
        apply digit_char_not_space. lia.
      * exists n, acc. split; [lia|reflexivity].
      * intros p a. exists 1. split; [lia|].
        cbn [list_ascii_of_string int_digits].
        rewrite digit_val_char by lia. f_equal; lia.
    + apply Z.ltb_ge in Small.
      assert (0 <= n / 10 < 2 ^ Z.of_nat (S f)) as B'.
      { replace (Z.of_nat (S (S f))) with (Z.of_nat (S f) + 1) in B by lia.
        rewrite Z.pow_add_r in B by lia.
        set (P := 2 ^ Z.of_nat (S f)) in *.
        change (2 ^ 1) with 2 in B. Z.div_mod_to_equations. lia. }
      assert (0 <= n mod 10 <= 9) as Dg by (Z.div_mod_to_equations; lia).
      destruct (IH (n / 10) (String (Str.digit_char (n mod 10)) acc) B')
        as (I1 & I2 & I3).
      split; [|split].
      * intros F. apply I1. cbn [list_ascii_of_string].
        constructor; [apply digit_char_not_space, Dg|exact F].
      * exact I2.
      * intros p a. destruct (I3 p a) as (k & Hk & E).
        exists (k + 1). split; [lia|]. rewrite E.
        cbn [list_ascii_of_string int_digits].
        rewrite digit_val_char by exact Dg. f_equal.
        rewrite Z.pow_add_r by lia. change (10 ^ 1) with 10.
        Z.div_mod_to_equations. lia.
Qed.

Lemma of_nonneg_spec n :
  0 <= n ->
  Forall (fun c => is_space c = false) (list_ascii_of_string (Str.of_nonneg n))
  /\ (exists d rest,
         0 <= d <= 9 /\ Str.of_nonneg n = String (Str.digit_char d) rest)
  /\ int_digits (list_ascii_of_string (Str.of_nonneg n)) false 0 = Some n.
Proof.
  intros H. unfold Str.of_nonneg.
  assert (0 <= n < 2 ^ Z.of_nat (S (Z.to_nat (Z.log2 n)))) as B.
  { split; [exact H|].
    replace (Z.of_nat (S (Z.to_nat (Z.log2 n)))) with (Z.succ (Z.log2 n))
      by (pose proof (Z.log2_nonneg n); lia).
    destruct (Z.eq_dec n 0) as [->|N]; [reflexivity|].
    apply Z.log2_spec. lia. }
  destruct (digits_fuel_spec (Z.to_nat (Z.log2 n)) n "" B) as (I1 & I2 & I3).
  split; [apply I1; constructor|]. split; [exact I2|].
  destruct (I3 false 0) as (k & _ & E). rewrite E. reflexivity.
Qed.

(** A string that starts with a digit has no sign to take off. *)
Lemma no_sign_before_a_digit d rest :
  0 <= d <= 9 ->
  match Str.digit_char d :: rest with
  | "-"%char :: ds => (true, ds)
  | "+"%char :: ds => (false, ds)
  | _ => (false, Str.digit_char d :: rest)
  end = (false, Str.digit_char d :: rest).
Proof.
  intros H. apply digit_cases in H.
  repeat (destruct H as [H | H]); subst; reflexivity.
Qed.

(** [int(str(n))] is [n]. *)
Lemma int_of_string_of_Z n : int_of_string (Str.of_Z n) = Ok n.
Proof.
  unfold int_of_string, Str.of_Z. destruct (n <? 0) eqn:Neg.
  - apply Z.ltb_lt in Neg.
    destruct (of_nonneg_spec (- n) ltac:(lia)) as (F & _ & I).
    cbn [list_ascii_of_string].
    rewrite strip_no_space by (constructor; [reflexivity|exact F]).
    rewrite I. f_equal. lia.
  - apply Z.ltb_ge in Neg.
    destruct (of_nonneg_spec n Neg) as (F & (d & rest & Hd & E) & I).
    rewrite strip_no_space by exact F.
    rewrite E in I |- *. cbn [list_ascii_of_string] in I |- *.
    rewrite (no_sign_before_a_digit d (list_ascii_of_string rest) Hd), I.
    reflexivity.
Qed.

Lemma NoDup_app_iff {A : Type} (l1 l2 : list A) :
  NoDup (l1 ++ l2)
  <-> NoDup l1 /\ NoDup l2 /\ forall a, In a l1 -> ~ In a l2.
Proof.
  induction l1 as [|x l1 IH]; cbn [app].
  - split; [intros N; repeat split; [constructor|exact N|intros a []]|tauto].
  - rewrite !NoDup_cons_iff, IH, in_app_iff. split.
    + intros (Nx & N1 & N2 & D). repeat split; try tauto.
      intros a [<-|Ha]; [tauto|apply D, Ha].
    + intros ((Nx & N1) & N2 & D). repeat split; try assumption.
      * intros [H|H]; [tauto|]. exact (D x (or_introl eq_refl) H).
      * intros a Ha. apply D. right. exact Ha.
Qed.

(** *** The substring test *)

Lemma prefix_spec n h :
  String.prefix n h = true <-> exists post, h = n ++ post.
Proof.
  revert h. induction n as [|c n IH]; intros h.
  - split; [intros _; exists h; reflexivity|].
    intros _. destruct h; reflexivity.
  - destruct h as [|c' h]; cbn [String.prefix].
    + split; [discriminate|]. intros [post E]. discriminate E.
    + destruct (Ascii.ascii_dec c c') as [->|N].
      * rewrite IH. split; intros [post E]; exists post.
        -- cbn. now rewrite E.
        -- cbn in E. now injection E.
      * split; [discriminate|]. intros [post E]. cbn in E.
        injection E as E1 _. congruence.
Qed.

(** [needle in haystack] holds exactly when the needle stands somewhere
    in the haystack. *)
Lemma contains_spec n h :
  Str.contains n h = true <-> exists pre post, h = pre ++ n ++ post.
Proof.
  split.
  - induction h as [|c h IH].
    + cbn [Str.contains]. destruct (String.prefix n "") eqn:P; [|discriminate].
      intros _. apply prefix_spec in P. destruct P as [post E].
      exists "", post. exact E.
    + cbn [Str.contains]. destruct (String.prefix n (String c h)) eqn:P.
      * intros _. apply prefix_spec in P. destruct P as [post E].
        exists "", post. exact E.
      * intros H. destruct (IH H) as (pre & post & E).
        exists (String c pre), post. cbn. now rewrite E.
  - intros (pre & post & ->). induction pre as [|c pre IH].
    + assert (String.prefix n (n ++ post) = true) as P
        by (apply prefix_spec; exists post; reflexivity).
      cbn [append]. destruct (n ++ post); cbn [Str.contains]; now rewrite P.
    + cbn [append Str.contains].
      destruct (String.prefix n (String c (pre ++ n ++ post))); [reflexivity|].
      exact IH.
Qed.

End AuditFacts.

(** * The claims *)

Import Py Calendar Run Handler Observe.
Import CalendarFacts PyFacts RunFacts.

(** C7.  The list of instances the Backup Procedure works on is exactly
    the instances of all reservations, in order, whose state is not
    ['terminated']; and the images it requests are requested for the
    instances of that list, one after the other from its start, so never
    for a terminated instance of the listing. *)
Theorem C7_terminated_instances_are_not_imaged :
  forall (C : Cloud) (ec2 : string) (w : world C),
    (forall reservations,
        instances_to_backup reservations
        = filter live (List.concat (map Instances reservations)))
    /\ exists k,
        imaged_instances
          (requests (events (backup_tagged_instances_in_region ec2 w)))
        = firstn k (map Instance.InstanceId
                      (filter live (listed_instances C ec2 w))).
Proof.
  intros C ec2 w.
  assert (forall reservations,
             instances_to_backup reservations
             = filter live (List.concat (map Instances reservations))) as F.
  { intros rs. unfold instances_to_backup. now rewrite collect_instances_spec. }
  split; [exact F|].
  unfold backup_tagged_instances_in_region, listed_instances, marker_tag_query.
  run.
  destruct (describe_instances C ec2 _ w) as [[reservations|e] w1]; cbn [fst].
  - destruct (backup_loop_imaged C ec2 (instances_to_backup reservations) w1)
      as [k Hk].
    unfold events in Hk.
    destruct (for_each _ _ w1) as [[r w2] t2]. cbn [snd] in *.
    exists k. cbn [app requests imaged_instances]. rewrite Hk, F. reflexivity.
  - exists 0%nat. destruct (opt_in_required e); reflexivity.
Qed.

(** C6.  When listing the instances of a region fails with the
    not-activated error, the Backup Procedure returns normally after that
    one request, and the region's scan goes on with the Expiry Procedure,
    which sends its own listing request; when listing the images fails
    with that error the Expiry Procedure returns normally.  Any other
    failure of either listing is raised again, leaves the procedure and
    ends the loop over the regions, wherever the region stands in the
    list: the regions after it are not scanned. *)
Theorem C6_not_activated_is_tolerated_other_failures_abort :
  forall (C : Cloud) (ec2 : string) (w w' : world C) (e : exn),
    (describe_instances C ec2 marker_tag_query w = (Raise e, w') ->
     (opt_in_required e = true ->
      backup_tagged_instances_in_region ec2 w
      = (Ok tt, w',
         [Print "Scanning for instances with tags (backup,Backup)";
          Request ec2 (DescribeInstances marker_tag_query);
          Print "  Region not activated for this account, skipping..."])
      /\ scan_region ec2 w
         = (let '(r, w2, t) := delete_expired_amis ec2 w' in
            (r, w2,
             [Print ("Scanning region: " ++ ec2);
              Print "Scanning for instances with tags (backup,Backup)";
              Request ec2 (DescribeInstances marker_tag_query);
              Print "  Region not activated for this account, skipping..."]
             ++ t)%list)
      /\ exists rest,
          requests (events (scan_region ec2 w))
          = (ec2, DescribeInstances marker_tag_query)
            :: (ec2, DescribeImages [expiry_listing_filter] ["self"]) :: rest)
     /\
     (opt_in_required e = false ->
      backup_tagged_instances_in_region ec2 w
      = (Raise e, w',
         [Print "Scanning for instances with tags (backup,Backup)";
          Request ec2 (DescribeInstances marker_tag_query)])
      /\ forall earlier_regions later_regions w0 t0,
          scan_regions earlier_regions w0 = (Ok tt, w, t0) ->
          scan_regions (earlier_regions ++ ec2 :: later_regions) w0
          = (Raise e, w',
             (t0 ++ [Print ("Scanning region: " ++ ec2);
                     Print "Scanning for instances with tags (backup,Backup)";
                     Request ec2 (DescribeInstances marker_tag_query)])%list)))
    /\
    (describe_images C ec2 [expiry_listing_filter] ["self"] w = (Raise e, w') ->
     (opt_in_required e = true ->
      delete_expired_amis ec2 w
      = (Ok tt, w',
         [Print "Scanning for AMIs with tags (FarleysBackupInstanceRotater)";
          Request ec2 (DescribeImages [expiry_listing_filter] ["self"]);
          Print "  Region not activated for this account, skipping..."]))
     /\
     (opt_in_required e = false ->
      delete_expired_amis ec2 w
      = (Raise e, w',
         [Print "Scanning for AMIs with tags (FarleysBackupInstanceRotater)";
          Request ec2 (DescribeImages [expiry_listing_filter] ["self"])])
      /\ forall earlier_regions later_regions w0 t0 wb tb,
          scan_regions earlier_regions w0 = (Ok tt, wb, t0) ->
          backup_tagged_instances_in_region ec2 wb = (Ok tt, w, tb) ->
          scan_regions (earlier_regions ++ ec2 :: later_regions) w0
          = (Raise e, w',
             (t0 ++ Print ("Scanning region: " ++ ec2) :: tb
              ++ [Print "Scanning for AMIs with tags (FarleysBackupInstanceRotater)";
                  Request ec2 (DescribeImages [expiry_listing_filter] ["self"])])%list))).
Proof.
  intros C ec2 w w' e. split.
  - intros L. split; intros O.
    + assert (backup_tagged_instances_in_region ec2 w
              = (Ok tt, w',
                 [Print "Scanning for instances with tags (backup,Backup)";
                  Request ec2 (DescribeInstances marker_tag_query);
                  Print "  Region not activated for this account, skipping..."])) as B.
      { unfold backup_tagged_instances_in_region. run.
        unfold marker_tag_query in L. rewrite L, O. reflexivity. }
      split; [exact B|].
      assert (scan_region ec2 w
              = (let '(r, w2, t) := delete_expired_amis ec2 w' in
                 (r, w2,
                  [Print ("Scanning region: " ++ ec2);
                   Print "Scanning for instances with tags (backup,Backup)";
                   Request ec2 (DescribeInstances marker_tag_query);
                   Print "  Region not activated for this account, skipping..."]
                  ++ t)%list)) as S.
      { unfold scan_region. run. rewrite B.
        destruct (delete_expired_amis ec2 w') as [[r w2] t]. reflexivity. }
      split; [exact S|].
      rewrite S. destruct (delete_expired_amis_lists C ec2 w') as [rest R].
      unfold events in *. destruct (delete_expired_amis ec2 w') as [[r w2] t].
      cbn [snd] in *. exists rest. rewrite requests_app, R. reflexivity.
    + assert (backup_tagged_instances_in_region ec2 w
              = (Raise e, w',
                 [Print "Scanning for instances with tags (backup,Backup)";
                  Request ec2 (DescribeInstances marker_tag_query)])) as B.
      { unfold backup_tagged_instances_in_region. run.
        unfold marker_tag_query in L. rewrite L, O. reflexivity. }
      split; [exact B|].
      intros earlier later w0 t0 E. unfold scan_regions in *.
      rewrite for_each_app, E.
      rewrite (for_each_raise scan_region ec2 later w e w'
                 [Print ("Scanning region: " ++ ec2);
                  Print "Scanning for instances with tags (backup,Backup)";
                  Request ec2 (DescribeInstances marker_tag_query)]);
        [reflexivity|].
      unfold scan_region. run. rewrite B. reflexivity.
  - intros L. split; intros O.
    + unfold delete_expired_amis. run.
      unfold expiry_listing_filter in L. rewrite L, O. reflexivity.
    + assert (delete_expired_amis ec2 w
              = (Raise e, w',
                 [Print "Scanning for AMIs with tags (FarleysBackupInstanceRotater)";
                  Request ec2 (DescribeImages [expiry_listing_filter] ["self"])])) as D.
      { unfold delete_expired_amis. run.
        unfold expiry_listing_filter in L. rewrite L, O. reflexivity. }
      split; [exact D|].
      intros earlier later w0 t0 wb tb E B. unfold scan_regions in *.
      rewrite for_each_app, E.
      rewrite (for_each_raise scan_region ec2 later wb e w'
                 (Print ("Scanning region: " ++ ec2) :: tb
                  ++ [Print "Scanning for AMIs with tags (FarleysBackupInstanceRotater)";
                      Request ec2 (DescribeImages [expiry_listing_filter] ["self"])])%list);
        [reflexivity|].
      unfold scan_region. run. rewrite B, D. reflexivity.
Qed.

Lemma C6_witness :
  let C := Fake.cloud Fake.patchy in
  outcome (@backup_tagged_instances_in_region C "ap-northeast-3" 0%nat) = Ok tt
  /\ (exists rest,
        requests (events (@scan_region C "ap-northeast-3" 0%nat))
        = ("ap-northeast-3", DescribeInstances marker_tag_query)
          :: ("ap-northeast-3", DescribeImages [expiry_listing_filter] ["self"])
          :: rest)
  /\ outcome (@delete_expired_amis C "ap-south-1" 0%nat) = Ok tt
  /\ (exists e,
        outcome (@scan_regions C ["eu-west-3"; "us-east-1"] 0%nat) = Raise e
        /\ requests (events (@scan_regions C ["eu-west-3"; "us-east-1"] 0%nat))
           = [("eu-west-3", DescribeInstances marker_tag_query)])
  /\ (exists e,
        outcome (@scan_regions C ["eu-west-2"; "us-east-1"] 0%nat) = Raise e).
Proof.
  intros C.
  pose (optin op :=
          Fake.client_error "OptInRequired" op "The request could not be served.").
  pose (auth op :=
          Fake.client_error "AuthFailure" op "The request could not be served.").
  destruct (C6_not_activated_is_tolerated_other_failures_abort
              C "ap-northeast-3" 0%nat 0%nat (optin "DescribeInstances"))
    as [I1 _].
  destruct (I1 eq_refl) as [T1 _]. destruct (T1 eq_refl) as (B1 & _ & R1).
  destruct (C6_not_activated_is_tolerated_other_failures_abort
              C "ap-south-1" 0%nat 0%nat (optin "DescribeImages"))
    as [_ I2].
  destruct (I2 eq_refl) as [T2 _]. pose proof (T2 eq_refl) as D2.
  destruct (C6_not_activated_is_tolerated_other_failures_abort
              C "eu-west-3" 0%nat 0%nat (auth "DescribeInstances"))
    as [I3 _].
  destruct (I3 eq_refl) as [_ T3]. destruct (T3 eq_refl) as [_ A3].
  destruct (C6_not_activated_is_tolerated_other_failures_abort
              C "eu-west-2" 1%nat 1%nat (auth "DescribeImages"))
    as [_ I4].
  destruct (I4 eq_refl) as [_ T4]. destruct (T4 eq_refl) as [_ A4].
  split; [|split; [|split; [|split]]].
  - rewrite B1. reflexivity.
  - exact R1.
  - rewrite D2. reflexivity.
  - exists (auth "DescribeInstances").
    pose proof (A3 [] ["us-east-1"] 0%nat [] eq_refl) as X. cbn [app] in X.
    rewrite X. split; reflexivity.
  - exists (auth "DescribeImages").
    pose proof (A4 [] ["us-east-1"] 0%nat [] 0%nat _ eq_refl eq_refl) as X.
    cbn [app] in X. rewrite X. reflexivity.
Defined.



(** C1.  The code at the failing input: [snap-111] cannot be deleted.  The
    error of that one request leaves the Expiry Procedure; the image's
    other snapshot [snap-112] is never requested and the next expired
    image [ami-100] is never considered, although a failed deregistration
    two lines above is caught and printed. *)
Theorem C1_a_failed_snapshot_deletion_ends_the_procedure :
  let C := Fake.cloud Fake.stuck_snapshot in
  let run := @delete_expired_amis C "us-east-1" 0%nat in
  snapshots_of (Image.BlockDeviceMappings Fake.old_image) = ["snap-111"; "snap-112"]
  /\ outcome run
     = Raise (Fake.client_error "InvalidSnapshot.InUse" "DeleteSnapshot"
                "The snapshot snap-111 is currently in use")
  /\ requests (events run)
     = [("us-east-1", DescribeImages [expiry_listing_filter] ["self"]);
        ("us-east-1", DeregisterImage "ami-111");
        ("us-east-1", DeleteSnapshot "snap-111")]
  /\ ~ In ("us-east-1", DeleteSnapshot "snap-112") (requests (events run))
  /\ deregistered "us-east-1" "ami-100" (requests (events run)) = false.
Proof.
  intros C run. split; [reflexivity|]. split; [reflexivity|].
  assert (requests (events run)
          = [("us-east-1", DescribeImages [expiry_listing_filter] ["self"]);
             ("us-east-1", DeregisterImage "ami-111");
             ("us-east-1", DeleteSnapshot "snap-111")]) as R by reflexivity.
  split; [exact R|]. rewrite R. split; [|reflexivity].
  cbn [In]. intros [H | [H | [H | []]]]; discriminate H.
Qed.

(** C2, as stated, fails: an image whose [DeleteAfter] does not parse
    makes [time.strptime] raise outside any [try], so the images listed
    after it are not processed.  Here the expired [ami-111] alone is
    deregistered, but behind the mistagged [ami-333] nothing is requested
    for it. *)
Lemma C2_counterexample :
  ~ (forall (C : Cloud) (ec2 : string) (today_date : struct_time)
            (ami : Image.t) (later : list Image.t) (w : world C)
            (delete_after : string) (others : list string) (e : exn),
        tag_values "DeleteAfter" (Image.Tags ami) = delete_after :: others ->
        strptime_mdY delete_after = Raise e ->
        requests (events (expire_ami ec2 today_date ami w)) = []
        /\ requests (events (for_each (ami :: later) (expire_ami ec2 today_date) w))
           = requests (events (for_each later (expire_ami ec2 today_date) w))).
Proof.
  intros H.
  destruct (H (Fake.cloud Fake.mistagged) "us-east-1" (midnight (mkdate 2024 1 1))
              Fake.mistagged_image [Fake.old_image] 0%nat "2023-12-31" []
              (ValueError "time data '2023-12-31' does not match format '%m-%d-%Y'")
              eq_refl eq_refl) as [_ R].
  vm_compute in R. discriminate R.
Qed.

(** C2, amended.  An image whose [DeleteAfter] tag is present and does
    not parse is not deleted: nothing is requested for it.  The parse
    error is raised out of the loop over the candidate images, so the
    images listed after it are not processed, while those listed before
    it have been processed as usual. *)
Theorem C2_unparseable_date_is_not_deleted_and_ends_the_loop :
  forall (C : Cloud) (ec2 : string) (today_date : struct_time)
         (ami : Image.t) (w : world C)
         (delete_after : string) (others : list string) (e : exn),
    tag_values "DeleteAfter" (Image.Tags ami) = delete_after :: others ->
    strptime_mdY delete_after = Raise e ->
    let lines :=
      [Print ("  Found AMI to consider: " ++ Image.ImageId ami);
       Print ("           Delete After: " ++ delete_after)] in
    expire_ami ec2 today_date ami w = (Raise e, w, lines)
    /\ requests (events (expire_ami ec2 today_date ami w)) = []
    /\ (forall later,
           for_each (ami :: later) (expire_ami ec2 today_date) w
           = (Raise e, w, lines))
    /\ (forall earlier later w0 t0,
           for_each earlier (expire_ami ec2 today_date) w0 = (Ok tt, w, t0) ->
           for_each (earlier ++ ami :: later) (expire_ami ec2 today_date) w0
           = (Raise e, w, (t0 ++ lines)%list)).
Proof.
  intros C ec2 today_date ami w delete_after others e T P lines.
  pose proof (expire_ami_unparseable C ec2 today_date ami delete_after others T e w P)
    as U.
  fold lines in U.
  assert (forall later,
             for_each (ami :: later) (expire_ami ec2 today_date) w
             = (Raise e, w, lines)) as L
    by (intros later; apply for_each_raise, U).
  split; [exact U|]. split; [rewrite U; reflexivity|]. split; [exact L|].
  intros earlier later w0 t0 E. rewrite for_each_app, E, L. reflexivity.
Qed.

Lemma C2_witness :
  let C := Fake.cloud Fake.mistagged in
  let today_date := midnight (mkdate 2024 1 1) in
  (exists e,
      outcome (@for_each C _ [Fake.older_image; Fake.mistagged_image; Fake.old_image]
                 (expire_ami "us-east-1" today_date) 0%nat) = Raise e)
  /\ requests (events (@expire_ami C "us-east-1" today_date Fake.mistagged_image 0%nat))
     = [].
Proof.
  intros C today_date.
  destruct (C2_unparseable_date_is_not_deleted_and_ends_the_loop
              C "us-east-1" today_date Fake.mistagged_image 0%nat "2023-12-31" []
              (ValueError "time data '2023-12-31' does not match format '%m-%d-%Y'")
              eq_refl eq_refl) as (_ & N & _ & A).
  split; [|exact N].
  pose proof (A [Fake.older_image] [Fake.old_image] 0%nat _ eq_refl) as X.
  cbn [app] in X. eexists. rewrite X. reflexivity.
Defined.



(** C10.  The comparison of line 129 is a comparison of calendar dates.
    Whatever two strings [time.strptime] accepts, [today_date <=
    delete_date] holds exactly when the second date is not before the
    first by year, then month, then day; for dates printed as MM-DD-YYYY
    the parsed values are those dates, and an image is skipped exactly
    when its date is not before today.  The strings themselves order
    differently: ['12-31-2023'] is above ['01-01-2024'] as a string and
    before it as a date. *)
Theorem C10_dates_are_compared_in_calendar_order :
  (forall s1 s2 t1 t2,
      strptime_mdY s1 = Ok t1 -> strptime_mdY s2 = Ok t2 ->
      struct_time_le t1 t2 = negb (before (date_of t2) (date_of t1)))
  /\ (forall today delete_date,
         valid today = true -> valid delete_date = true ->
         strptime_mdY (strftime_mdY today) = Ok (midnight today)
         /\ strptime_mdY (strftime_mdY delete_date) = Ok (midnight delete_date)
         /\ struct_time_le (midnight today) (midnight delete_date)
            = negb (before delete_date today)
         /\ forall (C : Cloud) ec2 (ami : Image.t) others (w : world C),
             tag_values "DeleteAfter" (Image.Tags ami)
             = strftime_mdY delete_date :: others ->
             (requests (events (expire_ami ec2 (midnight today) ami w)) = []
              <-> before delete_date today = false))
  /\ (String.leb "12-31-2023" "01-01-2024" = false
      /\ before (mkdate 2023 12 31) (mkdate 2024 1 1) = true
      /\ exists t1 t2,
          strptime_mdY "12-31-2023" = Ok t1 /\ strptime_mdY "01-01-2024" = Ok t2
          /\ struct_time_le t1 t2 = true).
Proof.
  split; [exact strptime_le|]. split.
  - intros today delete_date Vt Vd.
    pose proof (strptime_strftime today Vt) as Pt.
    pose proof (strptime_strftime delete_date Vd) as Pd.
    split; [exact Pt|]. split; [exact Pd|]. split; [apply midnight_le|].
    intros C ec2 ami others w T.
    pose proof (midnight_le today delete_date) as L.
    destruct (before delete_date today) eqn:B; cbn [negb] in L.
    + rewrite (expire_ami_expired C ec2 _ ami _ others T _ w Pd L).
      split; discriminate.
    + rewrite (expire_ami_too_new C ec2 _ ami _ others T _ w Pd L).
      split; reflexivity.
  - split; [reflexivity|]. split; [reflexivity|].
    eexists. eexists. split; [reflexivity|]. split; reflexivity.
Qed.

Lemma C10_witness :
  struct_time_le (midnight (mkdate 2024 1 1)) (midnight (mkdate 2023 12 31)) = false
  /\ (exists t1 t2,
        strptime_mdY "1-5-2024" = Ok t1 /\ strptime_mdY "12-31-2023" = Ok t2
        /\ struct_time_le t1 t2 = false).
Proof.
  destruct C10_dates_are_compared_in_calendar_order as (G & F & _).
  split.
  - destruct (F (mkdate 2024 1 1) (mkdate 2023 12 31) eq_refl eq_refl)
      as (_ & _ & L & _).
    rewrite L. reflexivity.
  - eexists. eexists. split; [reflexivity|]. split; [reflexivity|].
    rewrite (G "1-5-2024" "12-31-2023" _ _ eq_refl eq_refl). reflexivity.
Defined.







(** * Further properties of the handler *)

Import Audit AuditFacts.

(** X1.  The Backup Procedure first lists the instances with the marker
    tags, and every request after that goes to the same client and is,
    for a listed instance that is not terminated, either the creation of
    its image, always without a reboot and never as a dry run, or the
    tags of that image.  It never sends a deletion. *)
Theorem X1_backup_only_creates_images_and_tags_for_live_listed_instances :
  forall (C : Cloud) (ec2 : string) (w : world C),
    exists rest,
      requests (events (backup_tagged_instances_in_region ec2 w))
      = (ec2, DescribeInstances marker_tag_query) :: rest
      /\ Forall (fun rq =>
                   fst rq = ec2
                   /\ exists instance,
                       In instance (filter live (listed_instances C ec2 w))
                       /\ backup_request instance (snd rq))
           rest
      /\ Forall (fun rq =>
                   match snd rq with
                   | CreateImage _ _ _ NoReboot DryRun =>
                       NoReboot = true /\ DryRun = false
                   | CreateTags _ _ => True
                   | _ => False
                   end)
           rest.
Proof.
  intros C ec2 w. destruct (backup_requests C ec2 w) as (rest & E & F).
  exists rest. split; [exact E|]. split; [exact F|].
  eapply Forall_impl; [|exact F].
  intros rq (_ & instance & _ & [[t ->] | (image_id & d & ->)]).
  - split; reflexivity.
  - exact I.
Qed.

(** X2.  With a clock that shows a date of the calendar, the Expiry
    Procedure first lists its own images with the management marker, and
    every request after that goes to the same client and deregisters an
    image of that listing, or deletes a snapshot named by one, whose
    first [DeleteAfter] tag parses to a date before today.  Images
    without the tag, with a tag that does not parse, or dated today or
    later are never touched. *)
Theorem X2_expiry_only_deletes_listed_images_past_their_date :
  forall (C : Cloud) (ec2 : string) (w : world C),
    valid (expiry_today C ec2 w) = true ->
    exists rest,
      requests (events (delete_expired_amis ec2 w))
      = (ec2, DescribeImages [expiry_listing_filter] ["self"]) :: rest
      /\ Forall (fun rq =>
                   fst rq = ec2
                   /\ justified (expiry_today C ec2 w) (listed_images C ec2 w)
                        (snd rq) = true)
           rest.
Proof.
  intros C ec2 w V.
  unfold delete_expired_amis, expiry_today, listed_images, expiry_listing_filter in *.
  run.
  destruct (describe_images C ec2 _ _ w) as [[amis|e] w1]; cbn [fst snd] in *.
  - destruct (now C w1) as [t w2]. cbn [fst] in V.
    rewrite (strptime_strftime (dt_date t) V).
    pose proof (@for_each_requests_Forall C _ (expire_ami ec2 (midnight (dt_date t)))
                  (fun rq =>
                     fst rq = ec2 /\ justified (dt_date t) amis (snd rq) = true)
                  amis) as L.
    assert (forall x (w0 : world C),
               In x amis ->
               Forall (fun rq =>
                         fst rq = ec2 /\ justified (dt_date t) amis (snd rq) = true)
                 (requests (events (expire_ami ec2 (midnight (dt_date t)) x w0))))
      as B.
    { intros x w0 Hx.
      eapply Forall_impl; [|apply expire_ami_requests].
      intros rq [R1 R2]. split; [exact R1|].
      unfold justified. apply existsb_exists. exists x. split; assumption. }
    specialize (L B w2). unfold events in L.
    destruct (for_each _ _ w2) as [[r w3] t3]. cbn [snd] in L.
    eexists. split; [reflexivity|exact L].
  - destruct (opt_in_required e); eexists; (split; [reflexivity|constructor]).
Qed.

Lemma X2_witness :
  let C := Fake.cloud Fake.quiet in
  exists rest,
    requests (events (@delete_expired_amis C "us-east-1" 0%nat))
    = ("us-east-1", DescribeImages [expiry_listing_filter] ["self"]) :: rest
    /\ Forall (fun rq =>
                 justified (mkdate 2024 1 1) [Fake.old_image; Fake.fresh_image]
                   (snd rq) = true)
         rest.
Proof.
  intros C.
  destruct (X2_expiry_only_deletes_listed_images_past_their_date
              C "us-east-1" 0%nat eq_refl) as (rest & E & F).
  exists rest. split; [exact E|].
  eapply Forall_impl; [|exact F]. intros rq [_ J]. exact J.
Defined.

(** X3.  Every request of a run goes to the client of one of the regions
    the run was given; [lambda_handler] only talks to the fifteen
    configured regions. *)
Theorem X3_requests_go_to_the_configured_regions :
  forall (C : Cloud) (w : world C),
    (forall regions,
        Forall (fun rq => In (fst rq) regions)
          (requests (events (scan_regions regions w))))
    /\ Forall (fun rq => In (fst rq) aws_regions)
         (requests (events (lambda_handler w))).
Proof.
  intros C w.
  assert (forall regions (w0 : world C),
             Forall (fun rq => In (fst rq) regions)
               (requests (events (scan_regions regions w0)))) as G.
  { intros regions w0. unfold scan_regions.
    apply for_each_requests_Forall. intros region w1 Hin.
    unfold scan_region. run.
    destruct (backup_requests C region w1) as (rest & E & F).
    unfold events in E.
    destruct (backup_tagged_instances_in_region region w1) as [[[[]|e] w2] t2];
      cbn [snd] in E.
    - pose proof (expiry_own_client C region w2) as D. unfold events in D.
      destruct (delete_expired_amis region w2) as [[r w3] t3]. cbn [snd] in D.
      cbn [snd app requests]. rewrite requests_app, E. apply Forall_app. split.
      + constructor; [exact Hin|].
        eapply Forall_impl; [|exact F]. intros rq [-> _]. exact Hin.
      + eapply Forall_impl; [|exact D]. intros rq ->. exact Hin.
    - cbn [snd app requests]. rewrite E.
      constructor; [exact Hin|].
      eapply Forall_impl; [|exact F]. intros rq [-> _]. exact Hin. }
  split; [intros regions; apply G|apply G].
Qed.



(** X5.  An image without a [DeleteAfter] tag, and an image whose date
    is today or later, are skipped: the loop prints its lines for the
    image, sends nothing, and goes on with the images after it from the
    same world. *)
Theorem X5_skipped_images_do_not_stop_the_loop :
  forall (C : Cloud) (ec2 : string) (today_date : struct_time)
         (ami : Image.t) (later : list Image.t) (w : world C),
    (tag_values "DeleteAfter" (Image.Tags ami) = [] ->
     for_each (ami :: later) (expire_ami ec2 today_date) w
     = (let '(r, w', t) := for_each later (expire_ami ec2 today_date) w in
        (r, w',
         [Print ("  Found AMI to consider: " ++ Image.ImageId ami);
          Print "Unable to find when to delete this image after, skipping..."]
         ++ t)%list))
    /\ (forall delete_after others delete_date,
           tag_values "DeleteAfter" (Image.Tags ami) = delete_after :: others ->
           strptime_mdY delete_after = Ok delete_date ->
           struct_time_le today_date delete_date = true ->
           for_each (ami :: later) (expire_ami ec2 today_date) w
           = (let '(r, w', t) := for_each later (expire_ami ec2 today_date) w in
              (r, w',
               [Print ("  Found AMI to consider: " ++ Image.ImageId ami);
                Print ("           Delete After: " ++ delete_after);
                Print "This item is too new, skipping..."]
               ++ t)%list)).
Proof.
  intros C ec2 today_date ami later w. split.
  - intros T. rewrite for_each_cons, (expire_ami_untagged C ec2 _ ami w T).
    reflexivity.
  - intros v others dd T P L.
    rewrite for_each_cons, (expire_ami_too_new C ec2 _ ami v others T dd w P L).
    reflexivity.
Qed.

Lemma X5_witness :
  let C := Fake.cloud Fake.quiet in
  requests
    (events (@for_each C _ [Cases.untagged_image; Fake.fresh_image; Fake.old_image]
               (expire_ami "us-east-1" (midnight (mkdate 2024 1 1))) 0%nat))
  = requests
      (events (@for_each C _ [Fake.old_image]
                 (expire_ami "us-east-1" (midnight (mkdate 2024 1 1))) 0%nat)).
Proof.
  intros C.
  destruct (X5_skipped_images_do_not_stop_the_loop
              C "us-east-1" (midnight (mkdate 2024 1 1)) Cases.untagged_image
              [Fake.fresh_image; Fake.old_image] 0%nat) as [U _].
  destruct (X5_skipped_images_do_not_stop_the_loop
              C "us-east-1" (midnight (mkdate 2024 1 1)) Fake.fresh_image
              [Fake.old_image] 0%nat) as [_ N].
  rewrite (U eq_refl), (N "01-01-2024" [] (midnight (mkdate 2024 1 1))
                          eq_refl eq_refl eq_refl).
  reflexivity.
Defined.



(** X7.  When the current date plus the retention days is not a date of
    the calendar, the sum raises [OverflowError] after the image was
    created: the image is left without any tag, the error leaves the
    Backup Procedure, and the instances after this one are not backed
    up. *)
Theorem X7_retention_beyond_the_calendar_leaves_the_image_untagged :
  forall (C : Cloud) (ec2 : string) (instance : Instance.t)
         (w w1 w2 w3 : world C) (t today : datetime) (image_id : string),
    now C w = (t, w1) ->
    create_image C ec2 (Instance.InstanceId instance) (image_name instance t)
      (image_description instance) true false w1 = (Ok image_id, w2) ->
    now C w2 = (today, w3) ->
    ~ (0 < toordinal (dt_date today) + retention_days instance <= MAXORDINAL) ->
    exists message,
      outcome (backup_instance ec2 instance w) = Raise (OverflowError message)
      /\ requests (events (backup_instance ec2 instance w))
         = [(ec2, CreateImage (Instance.InstanceId instance)
                    (image_name instance t) (image_description instance)
                    true false)]
      /\ forall later,
          outcome (for_each (instance :: later) (backup_instance ec2) w)
          = Raise (OverflowError message)
          /\ requests (events (for_each (instance :: later) (backup_instance ec2) w))
             = [(ec2, CreateImage (Instance.InstanceId instance)
                        (image_name instance t) (image_description instance)
                        true false)].
Proof.
  intros C ec2 instance w w1 w2 w3 t today image_id N1 I N2 R.
  destruct (date_add_days_overflow _ _ R) as [message A].
  destruct (backup_instance_overflow C ec2 instance w w1 w2 w3 t today image_id
              N1 I N2 _ A) as [O Rq].
  exists message. split; [exact O|]. split; [exact Rq|].
  intros later.
  destruct (for_each_raise_outcome (backup_instance ec2) instance later w _ O)
    as [O' Rq'].
  split; [exact O'|]. rewrite Rq'. exact Rq.
Qed.

Lemma X7_witness :
  let C := Fake.cloud Cases.keeps_forever in
  exists message,
    outcome (@backup_tagged_instances_in_region C "us-east-1" 0%nat)
    = Raise (OverflowError message)
    /\ imaged_instances
         (requests (events (@backup_tagged_instances_in_region C "us-east-1" 0%nat)))
       = ["i-f0e"].
Proof.
  intros C.
  destruct (X7_retention_beyond_the_calendar_leaves_the_image_untagged
              C "us-east-1" Cases.forever 0%nat 0%nat 1%nat 1%nat
              Fake.new_year_2024 Fake.new_year_2024 "ami-0"
              eq_refl eq_refl eq_refl) as (message & O & _ & _).
  { vm_compute. intros [_ H]. apply H. reflexivity. }
  exists message. split; [|reflexivity].
  vm_compute in O. injection O as <-. reflexivity.
Defined.

(** X8.  A failure while backing up one instance is not caught.  When
    creating the image fails, or when tagging the created image fails,
    the error leaves the loop over the instances: the instances after
    this one are not backed up.  In the second case the image exists and
    the tagging was requested once. *)
Theorem X8_a_failed_backup_request_ends_the_loop_over_the_instances :
  forall (C : Cloud) (ec2 : string) (instance : Instance.t)
         (later : list Instance.t) (w w1 : world C) (t : datetime) (e : exn),
    now C w = (t, w1) ->
    let image :=
      (ec2, CreateImage (Instance.InstanceId instance) (image_name instance t)
              (image_description instance) true false) in
    let loop := for_each (instance :: later) (backup_instance ec2) w in
    (forall w2,
        create_image C ec2 (Instance.InstanceId instance) (image_name instance t)
          (image_description instance) true false w1 = (Raise e, w2) ->
        outcome loop = Raise e /\ requests (events loop) = [image])
    /\ (forall w2 w3 w4 image_id today delete_date,
           create_image C ec2 (Instance.InstanceId instance) (image_name instance t)
             (image_description instance) true false w1 = (Ok image_id, w2) ->
           now C w2 = (today, w3) ->
           date_add_days (dt_date today) (retention_days instance) = Ok delete_date ->
           create_tags C ec2 [image_id]
             (image_tags instance (strftime_mdY delete_date)) w3 = (Raise e, w4) ->
           outcome loop = Raise e
           /\ requests (events loop)
              = [image;
                 (ec2, CreateTags [image_id]
                         (image_tags instance (strftime_mdY delete_date)))]).
Proof.
  intros C ec2 instance later w w1 t e N1 image loop. split.
  - intros w2 I.
    assert (outcome (backup_instance ec2 instance w) = Raise e
            /\ requests (events (backup_instance ec2 instance w)) = [image]) as [O R].
    { unfold backup_instance. run. rewrite N1, I. split; reflexivity. }
    destruct (for_each_raise_outcome (backup_instance ec2) instance later w e O)
      as [O' R'].
    split; [exact O'|]. unfold loop. rewrite R'. exact R.
  - intros w2 w3 w4 image_id today d I N2 A Tg.
    assert (outcome (backup_instance ec2 instance w) = Raise e
            /\ requests (events (backup_instance ec2 instance w))
               = [image;
                  (ec2, CreateTags [image_id] (image_tags instance (strftime_mdY d)))])
      as [O R].
    { unfold backup_instance. run. rewrite N1, I, N2, A, Tg. split; reflexivity. }
    destruct (for_each_raise_outcome (backup_instance ec2) instance later w e O)
      as [O' R'].
    split; [exact O'|]. unfold loop. rewrite R'. exact R.
Qed.

Lemma X8_witness :
  (exists e,
      outcome (@for_each (Cases.guarded Fake.quiet 0) _ [Fake.web1; Fake.db1]
                 (backup_instance "us-east-1") 0%nat) = Raise e
      /\ imaged_instances
           (requests
              (events (@for_each (Cases.guarded Fake.quiet 0) _ [Fake.web1; Fake.db1]
                         (backup_instance "us-east-1") 0%nat)))
         = ["i-abc123"])
  /\ (exists e,
         outcome (@for_each (Cases.guarded Fake.quiet 5) _ [Cases.stacked; Fake.db1]
                    (backup_instance "us-east-1") 0%nat) = Raise e).
Proof.
  split.
  - destruct (X8_a_failed_backup_request_ends_the_loop_over_the_instances
                (Cases.guarded Fake.quiet 0) "us-east-1" Fake.web1 [Fake.db1]
                0%nat 0%nat Fake.new_year_2024
                (Fake.client_error "ResourceLimitExceeded" "CreateImage"
                   "You have reached your quota of images")
                eq_refl) as [F _].
    destruct (F 0%nat eq_refl) as [O R].
    eexists. split; [exact O|]. rewrite R. reflexivity.
  - destruct (X8_a_failed_backup_request_ends_the_loop_over_the_instances
                (Cases.guarded Fake.quiet 5) "us-east-1" Cases.stacked [Fake.db1]
                0%nat 0%nat Fake.new_year_2024
                (Fake.client_error "InvalidParameterValue" "CreateTags"
                   "Tag keys starting with 'aws:' are reserved for internal use")
                eq_refl) as [_ F].
    destruct (F 1%nat 1%nat 1%nat "ami-0" Fake.new_year_2024 (mkdate 2024 1 8)
                eq_refl eq_refl eq_refl eq_refl) as [O _].
    eexists. exact O.
Defined.


(** X10.  The tags sent for an image repeat a key exactly when the
    instance's own tags do, or when the instance already carries one of
    the three keys the Backup Procedure appends. *)
Theorem X10_image_tag_keys_are_distinct_iff_the_instance_lacks_the_three_keys :
  forall (instance : Instance.t) (delete_fmt : string),
    let keys := map Key (Instance.Tags instance) in
    NoDup (map Key (image_tags instance delete_fmt))
    <-> (NoDup keys
         /\ ~ In "DeleteAfter" keys
         /\ ~ In "OriginalInstanceID" keys
         /\ ~ In global_key_to_tag_on keys).
Proof.
  intros instance delete_fmt keys. unfold image_tags.
  rewrite map_app. fold keys. cbn [map Key].
  assert (NoDup ["DeleteAfter"; "OriginalInstanceID"; global_key_to_tag_on]) as N3.
  { repeat constructor; cbn; intros H;
      repeat (destruct H as [H|H]; [discriminate H|]); exact H. }
  rewrite NoDup_app_iff. split.
  - intros (N & _ & D).
    split; [exact N|].
    repeat split; intros H; apply (D _ H); cbn; auto.
  - intros (N & A & B & M).
    split; [exact N|]. split; [exact N3|].
    intros k Hk [<-|[<-|[<-|[]]]]; contradiction.
Qed.





(** X13.  A retention written as an integer is read back as that
    integer: an instance whose [Retention] tag holds the decimal form of
    [n], negative, zero or positive, is kept for [n] days, and the line
    printed for it shows the same digits. *)
Theorem X13_retention_written_in_decimal_is_read_back :
  forall (instance : Instance.t) (n : Z),
    tag_values "Retention" (Instance.Tags instance) = [Str.of_Z n] ->
    int_of_string (Str.of_Z n) = Ok n
    /\ retention_days instance = n
    /\ forall (C : Cloud) ec2 (w : world C),
        In ("      Time: " ++ Str.of_Z n ++ " days")
           (printed (events (backup_instance ec2 instance w))).
Proof.
  intros instance n T.
  pose proof (int_of_string_of_Z n) as I.
  pose proof (retention_days_integer instance (Str.of_Z n) n T I) as R.
  split; [exact I|]. split; [exact R|].
  intros C ec2 w. unfold backup_instance. run. rewrite R.
  destruct (now C w) as [t w1].
  destruct (create_image C _ _ _ _ _ _ w1) as [[image_id|e] w2];
    [|cbn [snd printed app In]; right; right; left; reflexivity].
  destruct (now C w2) as [today w3].
  destruct (date_add_days _ _) as [d|e];
    [|cbn [snd printed app In]; right; right; left; reflexivity].
  destruct (create_tags C _ _ _ w3) as [r w4].
  cbn [snd printed app In]. right; right; left; reflexivity.
Qed.

Lemma X13_witness :
  retention_days Fake.db1 = 14 /\ retention_days Fake.scratch = -3.
Proof.
  destruct (X13_retention_written_in_decimal_is_read_back Fake.db1 14 eq_refl)
    as (_ & A & _).
  destruct (X13_retention_written_in_decimal_is_read_back Fake.scratch (-3) eq_refl)
    as (_ & B & _).
  split; [exact A|exact B].
Defined.
